(** * ExerciseAnalyzer: a shallow embedding of [exercise_analyzer.py]

    The analyzer of the fitness-movement-analyzer keeps a bounded history
    of angle frames, a repetition counter driven by a down/up stage, and a
    sticky exercise label.  Every method of the Python class becomes a
    function on an explicit [Analyzer] record.

    Numbers.  An angle frame is a dict from joint names to numbers.  The
    angles are modelled as rationals ([Q]) with exact subtraction and
    comparison, which is what Python computes on [int] and [Fraction]
    values; on [float] angles the subtraction rounds, and that rounding is
    not modelled.  The arithmetic the analyzer performs on its own counts,
    [int(sum / len * 100)], is binary64 arithmetic whatever the inputs are,
    and is modelled as such (module [F64]).

    The pose detector.  [get_joint_angles] of [pose_detector.py] turns the
    landmark list into the angle frames the analyzer consumes; it is
    embedded too, with its two floating-point computations,
    [calculate_angle] and the pixel conversion, as parameters. *)

From Stdlib Require Import ZArith QArith Qabs Qminmax Lqa Lia String Ascii List Bool.
From Stdlib Require PrimFloat Uint63 FloatOps SpecFloat.
From stdpp Require Import gmap strings list fin_maps pretty.

Local Open Scope string_scope.
Local Open Scope Z_scope.

(* [set_solver] clears hypotheses by name and warns when one is absent. *)
#[local] Set Warnings "-clear-no-such-hyp".

(** ** Python helpers *)

Module Py.

(** [l[-n:]] on a list. *)
Definition last_n {A} (n : nat) (l : list A) : list A :=
  drop (length l - n)%nat l.

(** [deque(maxlen=m).append(x)]: a full deque drops its oldest element. *)
Definition deque_append {A} (m : nat) (d : list A) (x : A) : list A :=
  if (m <=? length d)%nat then drop 1 d ++ [x] else d ++ [x].

(** [not d] for a dict. *)
Definition dict_empty {V} (d : gmap string V) : bool :=
  match map_to_list d with [] => true | _ => false end.

(** [s in l] for a list of strings. *)
Definition str_in (s : string) (l : list string) : bool :=
  existsb (String.eqb s) l.

(** [x or 'unknown'] where [x] is [None] or a string: the empty string is
    falsy too. *)
Definition or_unknown (x : option string) : string :=
  match x with
  | None => "unknown"
  | Some s => if String.eqb s "" then "unknown" else s
  end.

Definition Qltb (x y : Q) : bool := negb (Qle_bool y x).

(** [max(l)] and [min(l)] of a non-empty list [x :: xs]. *)
Definition max_list (x : Q) (xs : list Q) : Q := fold_left Qmax xs x.
Definition min_list (x : Q) (xs : list Q) : Q := fold_left Qmin xs x.

(** [sum(l)] of a list of ints. *)
Definition sum (l : list Z) : Z := fold_left Z.add l 0.

(** Nearest integer to [n / d], ties to even ([0 <= n], [0 < d]). *)
Definition rne_div (n d : Z) : Z :=
  let q := n / d in
  let r := n mod d in
  if 2 * r <? d then q
  else if d <? 2 * r then q + 1
  else if Z.even q then q else q + 1.

(** [s.replace('_', ' ')] *)
Fixpoint replace_underscore (s : string) : string :=
  match s with
  | EmptyString => EmptyString
  | String c r =>
      String (if Ascii.eqb c "_"%char then " "%char else c) (replace_underscore r)
  end.

Definition is_upper (c : ascii) : bool :=
  let n := nat_of_ascii c in ((65 <=? n) && (n <=? 90))%nat.
Definition is_lower (c : ascii) : bool :=
  let n := nat_of_ascii c in ((97 <=? n) && (n <=? 122))%nat.
Definition to_upper (c : ascii) : ascii :=
  if is_lower c then ascii_of_nat (nat_of_ascii c - 32) else c.
Definition to_lower (c : ascii) : ascii :=
  if is_upper c then ascii_of_nat (nat_of_ascii c + 32) else c.

(** [s.title()] on ASCII text: a letter that follows a letter is
    lower-cased, any other letter is upper-cased. *)
Fixpoint title_from (after_letter : bool) (s : string) : string :=
  match s with
  | EmptyString => EmptyString
  | String c r =>
      if is_upper c || is_lower c
      then String (if after_letter then to_lower c else to_upper c)
                  (title_from true r)
      else String c (title_from false r)
  end.

Definition title (s : string) : string := title_from false s.

(** [f"{x:.0f}"]: the nearest integer, ties to even, with the sign of
    [x] kept in front of it. *)
Definition format_0f (x : Q) : string :=
  let digits := pretty (rne_div (Z.abs (Qnum x)) (Z.pos (Qden x))) in
  if Qnum x <? 0 then String.append "-" digits else digits.

(** The degree sign, as its two UTF-8 bytes. *)
Definition degree : string :=
  String (ascii_of_nat 194) (String (ascii_of_nat 176) EmptyString).

End Py.

(** ** Binary64 arithmetic on non-negative values

    A finite non-negative double is [m * 2^e], kept as the pair [(m, e)].
    [round n d] is the double nearest to the rational [n / d] (ties to
    even, 53-bit significand).  The exponent range is not modelled: the
    values rounded here are quotients of two list lengths and their
    products by 100, far from overflow and underflow. *)

Module F64.

Definition float : Type := Z * Z.

Definition prec : Z := 53.

Definition round (n d : Z) : float :=
  if n <=? 0 then (0, 0)
  else
    let e0 := Z.log2 n - Z.log2 d - (prec - 1) in
    let N := n * 2 ^ (Z.max 0 (- e0)) in
    let D := d * 2 ^ (Z.max 0 e0) in
    if N <? D * 2 ^ (prec - 1)
    then (Py.rne_div (2 * N) D, e0 - 1)
    else (Py.rne_div N D, e0).

(** [a / b] on two non-negative ints: [None] stands for
    [ZeroDivisionError]. *)
Definition truediv (a b : Z) : option float :=
  if b =? 0 then None else Some (round a b).

(** [x * k] for a double [x] and a non-negative int [k]. *)
Definition mul_int (x : float) (k : Z) : float :=
  let '(m, e) := x in
  if 0 <=? e then round (m * k * 2 ^ e) 1 else round (m * k) (2 ^ (- e)).

(** [int(x)]: truncation, which on a non-negative value is the floor. *)
Definition to_int (x : float) : Z :=
  let '(m, e) := x in
  if 0 <=? e then m * 2 ^ e else m / 2 ^ (- e).

End F64.

(** ** Data model *)

(** [self.stage] is [None], ['down'] or ['up']. *)
Inductive Stage : Set := Down | Up.

(** [self.stage == 'down'] *)
Definition stage_is_down (st : option Stage) : bool :=
  match st with Some Down => true | _ => false end.

(** A catalog entry has one of two shapes: it carries
    ['down_threshold'] and ['up_threshold'] and no ['static'] key, or it
    carries ['static': True] and no thresholds. *)
Inductive Motion : Set :=
| Static
| Dynamic (down_threshold up_threshold : Z).

Record Pattern : Set := {
  key_joints : list string;
  motion : Motion;
  ideal_range : Z * Z;
  form_checks : list string
}.

(** [pattern.get('static', False)] *)
Definition is_static (p : Pattern) : bool :=
  match motion p with Static => true | Dynamic _ _ => false end.

Abbreviation AngleFrame := (gmap string Q).

Record Analyzer : Type := {
  exercise_count : Z;
  stage : option Stage;
  current_exercise : option string;
  angle_history : list AngleFrame;
  feedback_messages : list string
}.

Definition with_count (s : Analyzer) (n : Z) : Analyzer :=
  {| exercise_count := n; stage := stage s;
     current_exercise := current_exercise s;
     angle_history := angle_history s;
     feedback_messages := feedback_messages s |}.

Definition with_stage (s : Analyzer) (st : option Stage) : Analyzer :=
  {| exercise_count := exercise_count s; stage := st;
     current_exercise := current_exercise s;
     angle_history := angle_history s;
     feedback_messages := feedback_messages s |}.

Definition with_exercise (s : Analyzer) (e : option string) : Analyzer :=
  {| exercise_count := exercise_count s; stage := stage s;
     current_exercise := e;
     angle_history := angle_history s;
     feedback_messages := feedback_messages s |}.

Definition with_history (s : Analyzer) (h : list AngleFrame) : Analyzer :=
  {| exercise_count := exercise_count s; stage := stage s;
     current_exercise := current_exercise s;
     angle_history := h;
     feedback_messages := feedback_messages s |}.

(** ** The exercise catalog, in the order of the dict literal *)

Definition exercise_patterns : list (string * Pattern) :=
  [ ("pushup",
     {| key_joints := ["left_elbow"; "right_elbow"];
        motion := Dynamic 90 160;
        ideal_range := (70, 90);
        form_checks := ["back_straight"; "full_range"] |});
    ("squat",
     {| key_joints := ["left_knee"; "right_knee"];
        motion := Dynamic 90 160;
        ideal_range := (80, 100);
        form_checks := ["knees_aligned"; "back_straight"] |});
    ("situp",
     {| key_joints := ["left_hip"; "right_hip"];
        motion := Dynamic 150 70;
        ideal_range := (45, 70);
        form_checks := ["controlled_movement"; "neck_neutral"] |});
    ("jumping_jack",
     {| key_joints := ["left_shoulder"; "right_shoulder"];
        motion := Dynamic 30 150;
        ideal_range := (150, 180);
        form_checks := ["synchronized_movement"] |});
    ("lunge",
     {| key_joints := ["left_knee"; "right_knee"];
        motion := Dynamic 90 160;
        ideal_range := (85, 95);
        form_checks := ["knee_alignment"; "balance"] |});
    ("plank",
     {| key_joints := ["left_hip"; "right_hip"];
        motion := Static;
        ideal_range := (170, 180);
        form_checks := ["back_straight"; "core_engaged"] |}) ].

(** [self.exercise_patterns[name]], [None] when [name not in] the dict. *)
Fixpoint lookup_pattern_in (cat : list (string * Pattern)) (name : string)
  : option Pattern :=
  match cat with
  | [] => None
  | (k, p) :: rest => if String.eqb name k then Some p else lookup_pattern_in rest name
  end.

Definition lookup_pattern (name : string) : option Pattern :=
  lookup_pattern_in exercise_patterns name.

(** [ExerciseAnalyzer.__init__] *)
Definition init : Analyzer :=
  {| exercise_count := 0; stage := None; current_exercise := None;
     angle_history := []; feedback_messages := [] |}.

Definition history_maxlen : nat := 30.

(** ** Exercise detection *)

Definition _check_static_position (s : Analyzer) (pattern : Pattern) : bool :=
  let recent_angles := Py.last_n 10 (angle_history s) in
  let '(min_angle, max_angle) := ideal_range pattern in
  forallb (fun angles : AngleFrame =>
    forallb (fun joint =>
      match angles !! joint with
      | Some angle =>
          Qle_bool (inject_Z min_angle) angle && Qle_bool angle (inject_Z max_angle)
      | None => true
      end) (key_joints pattern)) recent_angles.

(** [[a.get(joint, 0) for a in recent_angles if joint in a]] *)
Definition joint_readings (joint : string) (recent_angles : list AngleFrame)
  : list Q :=
  omap (fun a : AngleFrame => a !! joint) recent_angles.

Definition _check_dynamic_movement (s : Analyzer) (pattern : Pattern) : bool :=
  let recent_angles := Py.last_n 15 (angle_history s) in
  existsb (fun joint =>
    match joint_readings joint recent_angles with
    | [] => false
    | x :: xs =>
        let angle_range := (Py.max_list x xs - Py.min_list x xs)%Q in
        Py.Qltb 40 angle_range
    end) (key_joints pattern).

Definition _matches_pattern (s : Analyzer) (exercise_name : string)
  (pattern : Pattern) : bool :=
  if is_static pattern then _check_static_position s pattern
  else _check_dynamic_movement s pattern.

(** The [for exercise, pattern in self.exercise_patterns.items()] loop:
    the first matching entry, if any. *)
Fixpoint first_match (s : Analyzer) (cat : list (string * Pattern))
  : option string :=
  match cat with
  | [] => None
  | (exercise, pattern) :: rest =>
      if _matches_pattern s exercise pattern then Some exercise
      else first_match s rest
  end.

(** [detect_exercise(angles, landmarks)]; [landmarks] is never read. *)
Definition detect_exercise (s : Analyzer) (angles : AngleFrame)
  : Analyzer * string :=
  if Py.dict_empty angles then (s, "unknown")
  else
    let s1 := with_history s
                (Py.deque_append history_maxlen (angle_history s) angles) in
    if (length (angle_history s1) <? 10)%nat
    then (s1, Py.or_unknown (current_exercise s1))
    else
      match first_match s1 exercise_patterns with
      | Some exercise => (with_exercise s1 (Some exercise), exercise)
      | None => (s1, Py.or_unknown (current_exercise s1))
      end.

(** ** Repetition counter *)

(** One step of the state machine on the angle of the selected joint. *)
Definition rep_step (s : Analyzer) (exercise_type : string)
  (down_threshold up_threshold : Z) (angle : Q) : Analyzer :=
  if Py.str_in exercise_type ["pushup"; "squat"; "lunge"] then
    if Py.Qltb angle (inject_Z down_threshold) && negb (stage_is_down (stage s))
    then with_stage s (Some Down)
    else if Py.Qltb (inject_Z up_threshold) angle && stage_is_down (stage s)
    then with_count (with_stage s (Some Up)) (exercise_count s + 1)
    else s
  else if String.eqb exercise_type "situp" then
    if Py.Qltb (inject_Z down_threshold) angle && negb (stage_is_down (stage s))
    then with_stage s (Some Down)
    else if Py.Qltb angle (inject_Z up_threshold) && stage_is_down (stage s)
    then with_count (with_stage s (Some Up)) (exercise_count s + 1)
    else s
  else if String.eqb exercise_type "jumping_jack" then
    if Py.Qltb angle (inject_Z down_threshold) && negb (stage_is_down (stage s))
    then with_stage s (Some Down)
    else if Py.Qltb (inject_Z up_threshold) angle && stage_is_down (stage s)
    then with_count (with_stage s (Some Up)) (exercise_count s + 1)
    else s
  else s.

(** The [for joint in key_joints] loop with its [break]. *)
Fixpoint rep_loop (s : Analyzer) (angles : AngleFrame) (exercise_type : string)
  (down_threshold up_threshold : Z) (joints : list string) : Analyzer :=
  match joints with
  | [] => s
  | joint :: rest =>
      match angles !! joint with
      | Some angle => rep_step s exercise_type down_threshold up_threshold angle
      | None => rep_loop s angles exercise_type down_threshold up_threshold rest
      end
  end.

Definition count_repetitions (s : Analyzer) (angles : AngleFrame)
  (exercise_type : string) : Analyzer * Z :=
  match lookup_pattern exercise_type with
  | None => (s, exercise_count s)
  | Some pattern =>
      match motion pattern with
      | Static => (s, exercise_count s)
      | Dynamic down_threshold up_threshold =>
          let s' := rep_loop s angles exercise_type down_threshold up_threshold
                      (key_joints pattern) in
          (s', exercise_count s')
      end
  end.

(** ** Form evaluator *)

Definition go_deeper_msg (joint : string) (angle : Q) : string :=
  String.concat ""
    ["Go deeper! "; Py.title (Py.replace_underscore joint); " angle: ";
     Py.format_0f angle; Py.degree].

Definition come_up_msg (ideal_min : Z) : string :=
  String.concat "" ["Come up higher! Target: "; pretty ideal_min; Py.degree].

(** The body of the [for joint in pattern['key_joints']] loop for a joint
    that is in the frame. *)
Definition joint_feedback (s : Analyzer) (exercise_type : string)
  (ideal_min ideal_max : Z) (joint : string) (angle : Q) : list string :=
  if stage_is_down (stage s) then
    if Py.str_in exercise_type ["pushup"; "squat"] then
      if Py.Qltb (inject_Z ideal_max) angle then [go_deeper_msg joint angle]
      else if Py.Qltb angle (inject_Z ideal_min)
      then ["Don't go too low! Risk of injury."]
      else []
    else if String.eqb exercise_type "situp" then
      if Py.Qltb angle (inject_Z ideal_min) then [come_up_msg ideal_min] else []
    else []
  else [].

Definition back_straight_feedback (angles : AngleFrame)
  (exercise_type : string) : list string :=
  match angles !! "left_hip", angles !! "right_hip" with
  | Some l, Some r =>
      let hip_avg := ((l + r) / 2)%Q in
      if String.eqb exercise_type "pushup" && Py.Qltb hip_avg 160
      then ["Keep your back straight!"]
      else if String.eqb exercise_type "plank" && Py.Qltb hip_avg 170
      then ["Don't let your hips sag!"]
      else []
  | _, _ => []
  end.

Definition knees_aligned_feedback (angles : AngleFrame) : list string :=
  match angles !! "left_knee", angles !! "right_knee" with
  | Some l, Some r =>
      let knee_diff := Qabs (l - r) in
      if Py.Qltb 15 knee_diff then ["Keep knees aligned!"] else []
  | _, _ => []
  end.

Definition evaluate_form (s : Analyzer) (angles : AngleFrame)
  (exercise_type : string) : list string :=
  match lookup_pattern exercise_type with
  | None => []
  | Some pattern =>
      let '(ideal_min, ideal_max) := ideal_range pattern in
      flat_map (fun joint =>
        match angles !! joint with
        | Some angle => joint_feedback s exercise_type ideal_min ideal_max joint angle
        | None => []
        end) (key_joints pattern)
      ++ (if Py.str_in "back_straight" (form_checks pattern)
          then back_straight_feedback angles exercise_type else [])
      ++ (if Py.str_in "knees_aligned" (form_checks pattern)
          then knees_aligned_feedback angles else [])
  end.

(** ** Quality score *)

(** [1 < change < 20] for the change of one joint between two frames,
    scored 1 or 0. *)
Definition consistency (v v0 : Q) : Z :=
  let change := Qabs (v - v0) in
  if Py.Qltb 1 change && Py.Qltb change 20 then 1 else 0.

(** The scores appended for one [i]: [cur] is [recent_angles[i]] and
    [prev] is [recent_angles[i-1]].  The joints of [cur] are visited in
    the order of [map_to_list], the dict in its insertion order; only the
    sum and the length of the result are used. *)
Definition pair_scores (prev cur : AngleFrame) : list Z :=
  if negb (Py.dict_empty cur) && negb (Py.dict_empty prev) then
    omap (fun jv : string * Q =>
            match prev !! jv.1 with
            | Some v0 => Some (consistency jv.2 v0)
            | None => None
            end) (map_to_list cur)
  else [].

Fixpoint scores_from (prev : AngleFrame) (rest : list AngleFrame) : list Z :=
  match rest with
  | [] => []
  | cur :: rest' => pair_scores prev cur ++ scores_from cur rest'
  end.

(** [consistency_scores] after the [for i in range(1, len(recent_angles))]
    loop. *)
Definition consistency_scores (recent_angles : list AngleFrame) : list Z :=
  match recent_angles with
  | [] => []
  | first :: rest => scores_from first rest
  end.

(** [None] stands for an exception ([ZeroDivisionError]). *)
Definition _calculate_quality_score (s : Analyzer) : option Z :=
  if (length (angle_history s) <? 10)%nat then Some 0
  else
    let scores := consistency_scores (Py.last_n 10 (angle_history s)) in
    match scores with
    | [] => Some 0
    | _ :: _ =>
        match F64.truediv (Py.sum scores) (Z.of_nat (length scores)) with
        | Some ratio => Some (F64.to_int (F64.mul_int ratio 100))
        | None => None
        end
    end.



(** ** Reset *)

Definition reset (s : Analyzer) : Analyzer :=
  {| exercise_count := 0; stage := None; current_exercise := None;
     angle_history := []; feedback_messages := [] |}.

(** ** Sequences of calls *)

Inductive Call : Type :=
| CallDetect (angles : AngleFrame)
| CallCount (angles : AngleFrame) (exercise_type : string)
| CallEvaluate (angles : AngleFrame) (exercise_type : string)
| CallSummary
| CallReset.

(** The analyzer after one call. *)
Definition step (s : Analyzer) (c : Call) : Analyzer :=
  match c with
  | CallDetect angles => (detect_exercise s angles).1
  | CallCount angles exercise_type => (count_repetitions s angles exercise_type).1
  | CallEvaluate _ _ => s
  | CallSummary => s
  | CallReset => reset s
  end.

Definition run (s : Analyzer) (calls : list Call) : Analyzer :=
  fold_left step calls s.

Definition is_reset (c : Call) : bool :=
  match c with CallReset => true | _ => false end.

(** The states an analyzer can be in: [init] and whatever calls lead to. *)
Inductive reachable : Analyzer -> Prop :=
| reachable_init : reachable init
| reachable_step s c : reachable s -> reachable (step s c).

(** * Notions used in the statements *)

(** The names of the catalog. *)
Definition catalog_names : list string :=
  ["pushup"; "squat"; "situp"; "jumping_jack"; "lunge"; "plank"].

(** The history as [detect_exercise] examines it: after the append. *)
Definition history_after (s : Analyzer) (angles : AngleFrame) : list AngleFrame :=
  Py.deque_append history_maxlen (angle_history s) angles.

(** [selects joints angles j a]: [j] is the first joint of [joints], in
    the listed order, that is present in [angles], and [a] is its angle. *)
Definition selects (joints : list string) (angles : AngleFrame)
  (j : string) (a : Q) : Prop :=
  exists i : nat,
    joints !! i = Some j /\ angles !! j = Some a /\
    forall (i' : nat) (j' : string),
      (i' < i)%nat -> joints !! i' = Some j' -> angles !! j' = None.

Definition none_present (joints : list string) (angles : AngleFrame) : Prop :=
  forall j, In j joints -> angles !! j = None.

(** A call moved the stage from ['down'] to ['up']. *)
Definition down_up (s s' : Analyzer) : bool :=
  stage_is_down (stage s) &&
  match stage s' with Some Up => true | _ => false end.

(** The number of down-to-up stage transitions along a run of calls. *)
Fixpoint down_up_transitions (s : Analyzer) (calls : list Call) : Z :=
  match calls with
  | [] => 0
  | c :: rest =>
      (if down_up s (step s c) then 1 else 0)
      + down_up_transitions (step s c) rest
  end.

(** No frame of [frames] has a hip angle. *)
Definition no_hip_data (frames : list AngleFrame) : Prop :=
  forall f, In f frames -> f !! "left_hip" = None /\ f !! "right_hip" = None.

(** No key joint of a dynamic pattern spans more than 40 degrees over
    [frames]: any two of its readings differ by at most 40. *)
Definition no_dynamic_movement (frames : list AngleFrame) : Prop :=
  forall (name : string) (p : Pattern) (d u : Z) (joint : string)
         (f1 f2 : AngleFrame) (a1 a2 : Q),
    In (name, p) exercise_patterns -> motion p = Dynamic d u ->
    In joint (key_joints p) ->
    In f1 frames -> In f2 frames ->
    f1 !! joint = Some a1 -> f2 !! joint = Some a2 ->
    (a1 - a2 <= 40)%Q.

(** *** The quality score in the words of the specification *)

(** The joints present in both frames. *)
Definition shared_joints (prev cur : AngleFrame) : gset string :=
  dom prev ∩ dom cur.

Definition angle_of (f : AngleFrame) (j : string) : Q := default 0%Q (f !! j).

(** The absolute angle delta of joint [j] between two frames. *)
Definition delta (prev cur : AngleFrame) (j : string) : Q :=
  Qabs (angle_of cur j - angle_of prev j).

(** A comparison is consistent when [1 < delta < 20]. *)
Definition consistentb (prev cur : AngleFrame) (j : string) : bool :=
  Py.Qltb 1 (delta prev cur j) && Py.Qltb (delta prev cur j) 20.

Definition consistent_joints (prev cur : AngleFrame) : gset string :=
  filter (fun j => consistentb prev cur j = true) (shared_joints prev cur).

(** The consecutive frame pairs of a window. *)
Definition consecutive_pairs (frames : list AngleFrame)
  : list (AngleFrame * AngleFrame) :=
  zip frames (tail frames).

(** One comparison per consecutive pair and joint present in both. *)
Definition total_comparisons (frames : list AngleFrame) : nat :=
  sum_list_with (fun pc => size (shared_joints pc.1 pc.2))
                (consecutive_pairs frames).

Definition consistent_count (frames : list AngleFrame) : nat :=
  sum_list_with (fun pc => size (consistent_joints pc.1 pc.2))
                (consecutive_pairs frames).



(** No consecutive pair of the window shares a joint. *)
Definition nothing_shared (frames : list AngleFrame) : Prop :=
  forall prev cur,
    In (prev, cur) (consecutive_pairs frames) -> shared_joints prev cur = ∅.


(** *** Auxiliary notions *)

(** [int(c / t * 100)] as the code evaluates it on two counts, [0 < t]. *)
Definition percent (c t : Z) : Z :=
  F64.to_int (F64.mul_int (F64.round c t) 100).

(** The score appended for a joint of [cur], if [prev] has it too. *)
Definition joint_score (prev : AngleFrame) (jv : string * Q) : option Z :=
  match prev !! jv.1 with
  | Some v0 => Some (consistency jv.2 v0)
  | None => None
  end.

(** A frame with the left elbow only, used in the examples. *)
Definition elbow_frame (a : Z) : AngleFrame := {[ "left_elbow" := inject_Z a ]}.

(** The same [int(c / t * 100)] on the kernel's IEEE-754 doubles, for
    counts below [2^53] (which convert exactly). *)
Definition hw_percent (c t : Z) : option Z :=
  let f (n : Z) := PrimFloat.of_uint63 (Uint63.of_Z n) in
  let x := PrimFloat.mul (PrimFloat.div (f c) (f t)) (f 100) in
  match FloatOps.Prim2SF x with
  | SpecFloat.S754_zero _ => Some 0
  | SpecFloat.S754_finite false m e =>
      Some (if 0 <=? e then Z.pos m * 2 ^ e else Z.pos m / 2 ^ (- e))
  | _ => None
  end.

(** All pairs [(c, t)] with [0 <= c <= t] and [1 <= t <= n]. *)
Definition count_pairs (n : nat) : list (Z * Z) :=
  flat_map (fun t => map (fun c => (Z.of_nat c, Z.of_nat t)) (seq 0 (S t)))
           (seq 1 n).

(** [selects] at the first key joint. *)
Ltac selects_first :=
  exists 0%nat; split; [reflexivity|]; split;
  [vm_compute; reflexivity | intros ? ? Hlt; exfalso; lia].

(** *** Notions for the further properties *)

(** The frames a call sequence leaves to the history: a non-empty frame
    passed to [detect_exercise] is kept, [reset] forgets everything. *)
Definition submitted (acc : list AngleFrame) (c : Call) : list AngleFrame :=
  match c with
  | CallDetect angles => if Py.dict_empty angles then acc else acc ++ [angles]
  | CallReset => []
  | _ => acc
  end.

Definition frames_since_reset (calls : list Call) : list AngleFrame :=
  fold_left submitted calls [].

(** Two readings of [joint] in [frames] are more than 40 degrees apart. *)
Definition joint_moves (frames : list AngleFrame) (joint : string) : Prop :=
  exists (f1 f2 : AngleFrame) (a1 a2 : Q),
    In f1 frames /\ In f2 frames /\
    f1 !! joint = Some a1 /\ f2 !! joint = Some a2 /\ (40 < a1 - a2)%Q.

(** No two readings of [joint] in [frames] are more than 40 degrees apart. *)
Definition joint_still (frames : list AngleFrame) (joint : string) : Prop :=
  forall (f1 f2 : AngleFrame) (a1 a2 : Q),
    In f1 frames -> In f2 frames ->
    f1 !! joint = Some a1 -> f2 !! joint = Some a2 -> (a1 - a2 <= 40)%Q.

(** The number of [count_repetitions] calls in a sequence. *)
Definition is_count (c : Call) : bool :=
  match c with CallCount _ _ => true | _ => false end.

Definition count_calls (calls : list Call) : nat :=
  length (List.filter is_count calls).

(** The three messages of the form-check rules. *)
Definition form_check_messages : list string :=
  ["Keep your back straight!"; "Don't let your hips sag!"; "Keep knees aligned!"].

(** The per-joint part of [evaluate_form]: the [for joint in
    pattern['key_joints']] loop. *)
Definition joint_part (s : Analyzer) (angles : AngleFrame) (ty : string)
  (p : Pattern) : list string :=
  flat_map (fun joint =>
    match angles !! joint with
    | Some angle =>
        joint_feedback s ty (ideal_range p).1 (ideal_range p).2 joint angle
    | None => []
    end) (key_joints p).

(** The part of [evaluate_form] after the loop: the form-check rules. *)
Definition form_part (angles : AngleFrame) (ty : string) (p : Pattern)
  : list string :=
  (if Py.str_in "back_straight" (form_checks p)
   then back_straight_feedback angles ty else [])
  ++ (if Py.str_in "knees_aligned" (form_checks p)
      then knees_aligned_feedback angles else []).

(** A frame with every angle shifted by [k]. *)
Definition shift_frame (k : Q) (f : AngleFrame) : AngleFrame :=
  (fun a => (a + k)%Q) <$> f.

(** * The pose detector: [get_joint_angles] of [pose_detector.py]

    [detect_pose] hands over one list [[x, y, z, visibility]] per
    landmark.  The four numbers are finite doubles, hence rationals; the
    comparison [visibility > 0.5] is exact.  The two floating-point
    computations of the method, [int(v * n)] for a pixel coordinate and
    [calculate_angle] of [utils/angle_calculator.py], are parameters of
    the model: nothing is assumed about the values they return.  [None]
    stands for a raised [IndexError]. *)

Record Landmark : Set := {
  lm_x : Q;
  lm_y : Q;
  lm_z : Q;
  lm_visibility : Q
}.

(** The [joints] dict: MediaPipe landmark indices. *)
Definition joints : list (string * nat) :=
  [ ("left_shoulder", 11); ("right_shoulder", 12);
    ("left_elbow", 13); ("right_elbow", 14);
    ("left_wrist", 15); ("right_wrist", 16);
    ("left_hip", 23); ("right_hip", 24);
    ("left_knee", 25); ("right_knee", 26);
    ("left_ankle", 27); ("right_ankle", 28) ]%nat.

(** [joints[j]] *)
Fixpoint joints_get (d : list (string * nat)) (j : string) : option nat :=
  match d with
  | [] => None
  | (k, i) :: rest => if String.eqb j k then Some i else joints_get rest j
  end.

(** [landmarks[joints[j]][3] > 0.5] *)
Definition visible (landmarks : list Landmark) (j : string) : option bool :=
  match joints_get joints j with
  | None => None
  | Some i =>
      match landmarks !! i with
      | None => None
      | Some lm => Some (Py.Qltb (1 # 2) (lm_visibility lm))
      end
  end.

(** [all(landmarks[joints[j]][3] > 0.5 for j in js)]: the generator stops
    at the first landmark that is not visible, so later ones are not
    read. *)
Fixpoint all_visible (landmarks : list Landmark) (js : list string)
  : option bool :=
  match js with
  | [] => Some true
  | j :: rest =>
      match visible landmarks j with
      | None => None
      | Some false => Some false
      | Some true => all_visible landmarks rest
      end
  end.

Section PoseDetector.

(** [calculate_angle(a, b, c)] on three pixel points. *)
Variable calculate_angle : Z * Z -> Z * Z -> Z * Z -> Q.

(** [int(v * n)] for a double [v] and an int [n]. *)
Variable to_pixel : Q -> Z -> Z.

(** [coords = [[int(lm[0] * w), int(lm[1] * h)] for lm in landmarks]] *)
Definition coords (landmarks : list Landmark) (h w : Z) : list (Z * Z) :=
  (fun lm => (to_pixel (lm_x lm) w, to_pixel (lm_y lm) h)) <$> landmarks.

(** [coords[joints[j]]] *)
Definition coord_at (cs : list (Z * Z)) (j : string) : option (Z * Z) :=
  match joints_get joints j with
  | None => None
  | Some i => cs !! i
  end.

(** One block of the method:
    [if all(... for j in [a, b, c]): angles[name] = calculate_angle(...)]. *)
Definition angle_block (landmarks : list Landmark) (cs : list (Z * Z))
  (name a b c : string) (angles : AngleFrame) : option AngleFrame :=
  match all_visible landmarks [a; b; c] with
  | None => None
  | Some false => Some angles
  | Some true =>
      match coord_at cs a, coord_at cs b, coord_at cs c with
      | Some pa, Some pb, Some pc =>
          Some (<[name := calculate_angle pa pb pc]> angles)
      | _, _, _ => None
      end
  end.

(** [get_joint_angles(landmarks, image_shape)] with
    [image_shape[:2] = (h, w)]. *)
Definition get_joint_angles (landmarks : list Landmark) (image_shape : Z * Z)
  : option AngleFrame :=
  match landmarks with
  | [] => Some ∅
  | _ :: _ =>
      let '(h, w) := image_shape in
      let cs := coords landmarks h w in
      match angle_block landmarks cs "left_elbow"
              "left_shoulder" "left_elbow" "left_wrist" ∅ with
      | None => None
      | Some angles =>
      match angle_block landmarks cs "right_elbow"
              "right_shoulder" "right_elbow" "right_wrist" angles with
      | None => None
      | Some angles =>
      match angle_block landmarks cs "left_knee"
              "left_hip" "left_knee" "left_ankle" angles with
      | None => None
      | Some angles =>
      match angle_block landmarks cs "right_knee"
              "right_hip" "right_knee" "right_ankle" angles with
      | None => None
      | Some angles =>
      match angle_block landmarks cs "left_hip"
              "left_shoulder" "left_hip" "left_knee" angles with
      | None => None
      | Some angles =>
          angle_block landmarks cs "right_hip"
            "right_shoulder" "right_hip" "right_knee" angles
      end end end end end
  end.

End PoseDetector.

(** The angles [get_joint_angles] can report, each with the three
    landmarks it is measured on. *)
Definition angle_table : list (string * (string * string * string)) :=
  [ ("left_elbow", ("left_shoulder", "left_elbow", "left_wrist"));
    ("right_elbow", ("right_shoulder", "right_elbow", "right_wrist"));
    ("left_knee", ("left_hip", "left_knee", "left_ankle"));
    ("right_knee", ("right_hip", "right_knee", "right_ankle"));
    ("left_hip", ("left_shoulder", "left_hip", "left_knee"));
    ("right_hip", ("right_shoulder", "right_hip", "right_knee")) ].

(** Landmark [j] of the list has visibility above 0.5. *)
Definition is_visible (landmarks : list Landmark) (j : string) : Prop :=
  exists (i : nat) (lm : Landmark),
    joints_get joints j = Some i /\ landmarks !! i = Some lm
    /\ (1 # 2 < lm_visibility lm)%Q.

(** The pixel point of landmark [j]. *)
Definition pixel_of (to_pixel : Q -> Z -> Z) (landmarks : list Landmark)
  (h w : Z) (j : string) : option (Z * Z) :=
  match joints_get joints j with
  | None => None
  | Some i =>
      match landmarks !! i with
      | None => None
      | Some lm => Some (to_pixel (lm_x lm) w, to_pixel (lm_y lm) h)
      end
  end.

(** A frame that [get_joint_angles] returned for some landmarks. *)
Definition detector_frame (calculate_angle : Z * Z -> Z * Z -> Z * Z -> Q)
  (to_pixel : Q -> Z -> Z) (angles : AngleFrame) : Prop :=
  exists (landmarks : list Landmark) (image_shape : Z * Z),
    get_joint_angles calculate_angle to_pixel landmarks image_shape
    = Some angles.

(** A frame without a shoulder angle. *)
Definition no_shoulders (f : AngleFrame) : Prop :=
  f !! "left_shoulder" = None /\ f !! "right_shoulder" = None.

(** Every frame handed to [detect_exercise] along the calls came from
    [get_joint_angles]. *)
Definition fed_by_detector (calculate_angle : Z * Z -> Z * Z -> Z * Z -> Q)
  (to_pixel : Q -> Z -> Z) (calls : list Call) : Prop :=
  forall angles, In (CallDetect angles) calls ->
                 detector_frame calculate_angle to_pixel angles.

(** * Properties *)

(** ** Basic facts about the helpers *)

Lemma Qltb_lt (x y : Q) : Py.Qltb x y = true <-> (x < y)%Q.
Proof.
  unfold Py.Qltb. rewrite negb_true_iff. split.
  - intros H. apply Qnot_le_lt. intros Hle.
    apply Qle_bool_iff in Hle. congruence.
  - intros H. destruct (Qle_bool y x) eqn:E; [|reflexivity].
    apply Qle_bool_iff in E. exfalso. exact (Qlt_not_le _ _ H E).
Qed.

Lemma Qltb_ge (x y : Q) : Py.Qltb x y = false <-> (y <= x)%Q.
Proof.
  unfold Py.Qltb. rewrite negb_false_iff. apply Qle_bool_iff.
Qed.

Lemma dict_empty_true {V} (d : gmap string V) :
  Py.dict_empty d = true <-> d = ∅.
Proof.
  unfold Py.dict_empty. split.
  - destruct (map_to_list d) eqn:E; [|discriminate].
    intros _. by apply map_to_list_empty_iff.
  - intros ->. by rewrite map_to_list_empty.
Qed.

Lemma dict_empty_false {V} (d : gmap string V) :
  Py.dict_empty d = false <-> d ≠ ∅.
Proof.
  rewrite <- dict_empty_true. destruct (Py.dict_empty d); split; congruence.
Qed.

Lemma str_in_In (s : string) (l : list string) :
  Py.str_in s l = true <-> In s l.
Proof.
  unfold Py.str_in. rewrite existsb_exists. split.
  - intros (x & Hx & E). apply String.eqb_eq in E. by subst.
  - intros H. exists s. split; [done|]. apply String.eqb_refl.
Qed.

Lemma length_last_n {A} (n : nat) (l : list A) :
  length (Py.last_n n l) = Nat.min n (length l).
Proof. unfold Py.last_n. rewrite length_drop. lia. Qed.

Lemma last_n_all {A} (n : nat) (l : list A) :
  (length l <= n)%nat -> Py.last_n n l = l.
Proof.
  intros H. unfold Py.last_n.
  replace (length l - n)%nat with 0%nat by lia. apply drop_0.
Qed.

Lemma length_deque_append {A} (m : nat) (d : list A) (x : A) :
  (0 < m)%nat -> (length d <= m)%nat ->
  length (Py.deque_append m d x) = Nat.min m (S (length d)).
Proof.
  intros Hm Hd. unfold Py.deque_append.
  destruct (Nat.leb_spec m (length d)).
  - rewrite length_app, length_drop. simpl. lia.
  - rewrite length_app. simpl. lia.
Qed.

Lemma catalog_names_keys : map fst exercise_patterns = catalog_names.
Proof. reflexivity. Qed.

Lemma lookup_pattern_In (name : string) (p : Pattern) :
  lookup_pattern name = Some p -> In (name, p) exercise_patterns.
Proof.
  unfold lookup_pattern. generalize exercise_patterns as cat.
  induction cat as [|[k q] cat IH]; simpl; [discriminate|].
  destruct (String.eqb_spec name k) as [->|Hne].
  - intros [= ->]. by left.
  - intros H. right. by apply IH.
Qed.

Lemma lookup_pattern_None (name : string) :
  lookup_pattern name = None <-> ~ In name catalog_names.
Proof.
  rewrite <- catalog_names_keys. unfold lookup_pattern.
  generalize exercise_patterns as cat.
  induction cat as [|[k q] cat IH]; simpl; [tauto|].
  destruct (String.eqb_spec name k) as [->|Hne].
  - split; [discriminate|]. intros H. exfalso. apply H. by left.
  - rewrite IH. split.
    + intros H [E|E]; [congruence|done].
    + intros H E. apply H. by right.
Qed.

Lemma first_match_In (s : Analyzer) (cat : list (string * Pattern)) (e : string) :
  first_match s cat = Some e ->
  exists p, In (e, p) cat /\ _matches_pattern s e p = true.
Proof.
  induction cat as [|[k q] cat IH]; simpl; [discriminate|].
  destruct (_matches_pattern s k q) eqn:E.
  - intros [= <-]. exists q. split; [by left|done].
  - intros H. destruct (IH H) as (p & Hp & Hm). exists p. split; [by right|done].
Qed.

Lemma first_match_None (s : Analyzer) (cat : list (string * Pattern)) :
  first_match s cat = None <->
  forall e p, In (e, p) cat -> _matches_pattern s e p = false.
Proof.
  induction cat as [|[k q] cat IH]; simpl.
  - split; [intros _ e p []|done].
  - destruct (_matches_pattern s k q) eqn:E.
    + split; [discriminate|]. intros H. rewrite (H k q) in E; [discriminate|by left].
    + rewrite IH. split.
      * intros H e p [[= <- <-]|Hin]; [done|by apply H].
      * intros H e p Hin. apply H. by right.
Qed.

(** ** Exercise detection *)

Lemma detect_exercise_nonempty (s : Analyzer) (angles : AngleFrame) :
  angles ≠ ∅ ->
  detect_exercise s angles =
    let s1 := with_history s (history_after s angles) in
    if (length (history_after s angles) <? 10)%nat
    then (s1, Py.or_unknown (current_exercise s))
    else match first_match s1 exercise_patterns with
         | Some e => (with_exercise s1 (Some e), e)
         | None => (s1, Py.or_unknown (current_exercise s))
         end.
Proof.
  intros H. apply dict_empty_false in H.
  unfold detect_exercise. rewrite H. reflexivity.
Qed.

Lemma detect_exercise_empty_eq (s : Analyzer) :
  detect_exercise s ∅ = (s, "unknown").
Proof.
  unfold detect_exercise.
  assert (E : Py.dict_empty (∅ : AngleFrame) = true) by by apply dict_empty_true.
  rewrite E. reflexivity.
Qed.

(** C4. Whatever the state of the analyzer, [detect_exercise] on an empty
    frame returns ['unknown'] (also when [current_exercise] is set) and
    returns the analyzer as it was: history, counter, stage, label and
    buffered feedback are all untouched. *)
Theorem detect_exercise_empty_frame :
  forall s : Analyzer, detect_exercise s ∅ = (s, "unknown").
Proof. exact detect_exercise_empty_eq. Qed.

(** ** Repetition counter *)

Lemma rep_loop_selects s angles ty d u joints j a :
  selects joints angles j a ->
  rep_loop s angles ty d u joints = rep_step s ty d u a.
Proof.
  intros (i & Hi & Ha & Hbefore). revert i Hi Hbefore.
  induction joints as [|k joints IH]; intros i Hi Hbefore; [by destruct i|].
  destruct i as [|i]; simpl in *.
  - injection Hi as ->. by rewrite Ha.
  - rewrite (Hbefore 0%nat k); [|lia|done].
    apply (IH i Hi). intros i' j' Hlt Hj'. apply (Hbefore (S i') j'); [lia|done].
Qed.

Lemma rep_loop_none s angles ty d u joints :
  none_present joints angles ->
  rep_loop s angles ty d u joints = s.
Proof.
  induction joints as [|k joints IH]; intros Hnone; simpl; [done|].
  rewrite (Hnone k); [|by left]. apply IH. intros j Hj. apply Hnone. by right.
Qed.

(** Either some joint is selected or none is present. *)
Lemma selects_or_none joints (angles : AngleFrame) :
  (exists j a, selects joints angles j a) \/ none_present joints angles.
Proof.
  induction joints as [|k joints IH].
  - right. intros j [].
  - destruct (angles !! k) as [a|] eqn:E.
    + left. exists k, a, 0%nat. repeat split; [done|]. intros i' j' Hlt. lia.
    + destruct IH as [(j & a & i & Hi & Ha & Hb)|Hnone].
      * left. exists j, a, (S i). repeat split; [done..|].
        intros [|i'] j' Hlt Hj'; simpl in Hj'.
        -- by injection Hj' as <-.
        -- apply (Hb i' j'); [lia|done].
      * right. intros j [<-|Hj]; [done|by apply Hnone].
Qed.

(** What one step of the state machine can do. *)
Lemma rep_step_cases s ty d u a :
  rep_step s ty d u a = s
  \/ (stage s <> Some Down /\ rep_step s ty d u a = with_stage s (Some Down))
  \/ (stage s = Some Down /\
      rep_step s ty d u a = with_count (with_stage s (Some Up)) (exercise_count s + 1)).
Proof.
  assert (Hd : forall st, stage_is_down st = true <-> st = Some Down).
  { intros [[]|]; simpl; split; congruence. }
  unfold rep_step.
  repeat match goal with
  | |- context [if ?b then _ else _] =>
      let E := fresh "E" in destruct b eqn:E
  end; auto;
  repeat match goal with
  | H : _ && _ = true |- _ => apply andb_true_iff in H; destruct H
  | H : negb _ = true |- _ => apply negb_true_iff in H
  end.
  all: try (right; left; split; [|reflexivity];
            intros Hs; apply Hd in Hs; congruence).
  all: right; right; split; [by apply Hd|reflexivity].
Qed.

Lemma count_repetitions_cases s angles ty :
  let s' := (count_repetitions s angles ty).1 in
  (count_repetitions s angles ty).2 = exercise_count s' /\
  (s' = s
   \/ (stage s <> Some Down /\ s' = with_stage s (Some Down))
   \/ (stage s = Some Down /\
       s' = with_count (with_stage s (Some Up)) (exercise_count s + 1))).
Proof.
  unfold count_repetitions.
  destruct (lookup_pattern ty) as [p|]; simpl; [|auto].
  destruct (motion p) as [|d u]; simpl; [auto|].
  split; [reflexivity|].
  destruct (selects_or_none (key_joints p) angles) as [(j & a & Hsel)|Hnone].
  - rewrite (rep_loop_selects _ _ _ _ _ _ _ _ Hsel). apply rep_step_cases.
  - rewrite (rep_loop_none _ _ _ _ _ _ Hnone). auto.
Qed.

Lemma detect_exercise_frame s angles :
  let s' := (detect_exercise s angles).1 in
  exercise_count s' = exercise_count s /\ stage s' = stage s
  /\ feedback_messages s' = feedback_messages s.
Proof.
  unfold detect_exercise.
  repeat match goal with
  | |- context [if ?b then _ else _] => destruct b
  | |- context [match first_match ?x ?y with _ => _ end] => destruct (first_match x y)
  end; simpl; done.
Qed.

Lemma step_count_cases (s : Analyzer) (c : Call) :
  is_reset c = false ->
  if down_up s (step s c)
  then exercise_count (step s c) = exercise_count s + 1
  else exercise_count (step s c) = exercise_count s.
Proof.
  intros Hr. destruct c as [angles|angles ty|angles ty| |]; simpl in *;
    try discriminate.
  - destruct (detect_exercise_frame s angles) as (Hc & Hs & _).
    unfold down_up. rewrite Hs, Hc. by destruct (stage s) as [[]|].
  - destruct (count_repetitions_cases s angles ty) as (_ & [E|[[Hs E]|[Hs E]]]);
      rewrite E; unfold down_up; simpl.
    + by destruct (stage s) as [[]|].
    + by rewrite andb_false_r.
    + by rewrite Hs.
  - unfold down_up. by destruct (stage s) as [[]|].
  - unfold down_up. by destruct (stage s) as [[]|].
Qed.

Lemma down_up_transitions_nonneg (calls : list Call) :
  forall s, 0 <= down_up_transitions s calls.
Proof.
  induction calls as [|c calls IH]; intros s; simpl; [lia|].
  specialize (IH (step s c)). destruct (down_up s (step s c)); lia.
Qed.

Lemma run_count_transitions (calls : list Call) :
  forall s,
    forallb (fun c => negb (is_reset c)) calls = true ->
    exercise_count (run s calls) = exercise_count s + down_up_transitions s calls.
Proof.
  induction calls as [|c calls IH]; intros s Hnr; simpl in *; [lia|].
  apply andb_true_iff in Hnr as [Hc Hnr]. apply negb_true_iff in Hc.
  fold (run (step s c) calls). rewrite (IH _ Hnr).
  pose proof (step_count_cases s c Hc) as H.
  destruct (down_up s (step s c)); lia.
Qed.

(** In the families that go down below [down_threshold] and up above
    [up_threshold], an angle that is not above [up_threshold] does not
    count. *)
Lemma rep_step_not_above_up s ty d u (a : Q) :
  In ty ["pushup"; "squat"; "lunge"; "jumping_jack"] ->
  (a <= inject_Z u)%Q ->
  exercise_count (rep_step s ty d u a) = exercise_count s.
Proof.
  intros Hty Ha. apply Qltb_ge in Ha.
  assert (E : rep_step s ty d u a =
              if Py.Qltb a (inject_Z d) && negb (stage_is_down (stage s))
              then with_stage s (Some Down) else s).
  { unfold rep_step. rewrite Ha. simpl.
    simpl in Hty. destruct Hty as [<-|[<-|[<-|[<-|[]]]]]; simpl;
      by destruct (_ && _). }
  rewrite E. by destruct (_ && _).
Qed.

Lemma dynamic_90_160 (ty : string) (p : Pattern) :
  lookup_pattern ty = Some p -> motion p = Dynamic 90 160 ->
  In ty ["pushup"; "squat"; "lunge"].
Proof.
  intros Hl Hm. apply lookup_pattern_In in Hl. simpl in Hl.
  destruct Hl as [E|[E|[E|[E|[E|[E|[]]]]]]]; injection E as <- <-;
    simpl in *; try discriminate; auto.
Qed.

Lemma count_repetitions_selects s angles ty p d u j a :
  lookup_pattern ty = Some p -> motion p = Dynamic d u ->
  selects (key_joints p) angles j a ->
  count_repetitions s angles ty =
    (rep_step s ty d u a, exercise_count (rep_step s ty d u a)).
Proof.
  intros Hl Hm Hsel. unfold count_repetitions. rewrite Hl, Hm.
  by rewrite (rep_loop_selects _ _ _ _ _ _ _ _ Hsel).
Qed.

Lemma count_repetitions_none_present s angles ty p d u :
  lookup_pattern ty = Some p -> motion p = Dynamic d u ->
  none_present (key_joints p) angles ->
  count_repetitions s angles ty = (s, exercise_count s).
Proof.
  intros Hl Hm Hnone. unfold count_repetitions. rewrite Hl, Hm.
  by rewrite (rep_loop_none _ _ _ _ _ _ Hnone).
Qed.

(** C2. Along any sequence of calls without [reset], [exercise_count]
    grows by exactly the number of down-to-up stage transitions, hence
    never decreases; a call other than [count_repetitions] and [reset]
    leaves it as it is; one [count_repetitions] adds 1 when it moves the
    stage from down to up and adds nothing otherwise.  For a dynamic
    exercise with thresholds 90 and 160, four frames whose selected joint
    reads 95, 85, 95, 85 leave the count where it was (0 from a fresh
    analyzer). *)
Theorem exercise_count_monotone :
  (forall (s : Analyzer) (calls : list Call),
     forallb (fun c => negb (is_reset c)) calls = true ->
     exercise_count (run s calls) = exercise_count s + down_up_transitions s calls
     /\ exercise_count s <= exercise_count (run s calls))
  /\ (forall (s : Analyzer) (c : Call),
        is_reset c = false ->
        (forall angles ty, c <> CallCount angles ty) ->
        exercise_count (step s c) = exercise_count s /\ stage (step s c) = stage s)
  /\ (forall (s : Analyzer) (angles : AngleFrame) (ty : string),
        let s' := (count_repetitions s angles ty).1 in
        (count_repetitions s angles ty).2 = exercise_count s' /\
        if down_up s s'
        then exercise_count s' = exercise_count s + 1
        else exercise_count s' = exercise_count s)
  /\ (forall (ty : string) (p : Pattern),
        lookup_pattern ty = Some p -> motion p = Dynamic 90 160 ->
        forall (s : Analyzer) (f1 f2 f3 f4 : AngleFrame) (j1 j2 j3 j4 : string)
               (a1 a2 a3 a4 : Q),
          selects (key_joints p) f1 j1 a1 -> (a1 == 95)%Q ->
          selects (key_joints p) f2 j2 a2 -> (a2 == 85)%Q ->
          selects (key_joints p) f3 j3 a3 -> (a3 == 95)%Q ->
          selects (key_joints p) f4 j4 a4 -> (a4 == 85)%Q ->
          exercise_count
            (run s [CallCount f1 ty; CallCount f2 ty; CallCount f3 ty; CallCount f4 ty])
          = exercise_count s).
Proof.
  repeat apply conj.
  - intros s calls Hnr. rewrite (run_count_transitions _ _ Hnr).
    pose proof (down_up_transitions_nonneg calls s). lia.
  - intros s c Hr Hnc. destruct c as [angles|angles ty|angles ty| |];
      simpl in *; try discriminate; try done.
    + destruct (detect_exercise_frame s angles) as (Hc & Hs & _). done.
    + by destruct (Hnc angles ty).
  - intros s angles ty s'. subst s'.
    split; [apply count_repetitions_cases|].
    exact (step_count_cases s (CallCount angles ty) eq_refl).
  - intros ty p Hl Hm s f1 f2 f3 f4 j1 j2 j3 j4 a1 a2 a3 a4
      S1 E1 S2 E2 S3 E3 S4 E4.
    assert (Hty : In ty ["pushup"; "squat"; "lunge"; "jumping_jack"]).
    { pose proof (dynamic_90_160 _ _ Hl Hm) as H. simpl in *. tauto. }
    unfold run. simpl.
    rewrite (count_repetitions_selects _ _ _ _ _ _ _ _ Hl Hm S1); simpl.
    rewrite (count_repetitions_selects _ _ _ _ _ _ _ _ Hl Hm S2); simpl.
    rewrite (count_repetitions_selects _ _ _ _ _ _ _ _ Hl Hm S3); simpl.
    rewrite (count_repetitions_selects _ _ _ _ _ _ _ _ Hl Hm S4); simpl.
    rewrite !rep_step_not_above_up; try done.
    all: match goal with |- (?a <= _)%Q =>
           match goal with H : (a == _)%Q |- _ => rewrite H end end;
         unfold Qle; simpl; lia.
Qed.

Lemma exercise_count_monotone_witness :
  let f (a : Z) : AngleFrame := {[ "left_elbow" := inject_Z a ]} in
  exercise_count
    (run init [CallCount (f 95) "pushup"; CallCount (f 85) "pushup";
               CallCount (f 95) "pushup"; CallCount (f 85) "pushup"]) = 0
  /\ exercise_count init <=
       exercise_count
         (run init (map (fun a => CallCount (f a) "pushup")
                        [170; 150; 120; 90; 80; 95; 130; 160; 165; 170])).
Proof.
  intros f. destruct exercise_count_monotone as (Hrun & _ & _ & Hex). split.
  - apply (Hex "pushup" _ eq_refl eq_refl init (f 95) (f 85) (f 95) (f 85)
             "left_elbow" "left_elbow" "left_elbow" "left_elbow"
             (inject_Z 95) (inject_Z 85) (inject_Z 95) (inject_Z 85));
      first [selects_first | reflexivity].
  - apply Hrun. reflexivity.
Defined.

Lemma stage_is_down_true (st : option Stage) :
  stage_is_down st = true <-> st = Some Down.
Proof. destruct st as [[]|]; simpl; split; congruence. Qed.

Lemma stage_is_down_false (st : option Stage) :
  stage_is_down st = false <-> st <> Some Down.
Proof. destruct st as [[]|]; simpl; split; congruence. Qed.

Lemma rep_step_situp s d u a :
  rep_step s "situp" d u a =
    if Py.Qltb (inject_Z d) a && negb (stage_is_down (stage s))
    then with_stage s (Some Down)
    else if Py.Qltb a (inject_Z u) && stage_is_down (stage s)
    then with_count (with_stage s (Some Up)) (exercise_count s + 1)
    else s.
Proof. reflexivity. Qed.

(** C3. For ['situp'] (key joints left_hip, right_hip; down-threshold 150,
    up-threshold 70) the machine is inverted: with [a] the angle of the
    selected joint, [a > 150] while the stage is not ['down'] sets the
    stage to ['down']; [a < 70] while the stage is ['down'] sets it to
    ['up'] and adds 1 to [exercise_count]; in every other case nothing
    changes. *)
Theorem situp_inverted_machine :
  forall (p : Pattern) (s : Analyzer) (angles : AngleFrame) (j : string) (a : Q),
    lookup_pattern "situp" = Some p ->
    selects (key_joints p) angles j a ->
    motion p = Dynamic 150 70
    /\ ((150 < a)%Q -> stage s <> Some Down ->
        count_repetitions s angles "situp"
        = (with_stage s (Some Down), exercise_count s))
    /\ ((a < 70)%Q -> stage s = Some Down ->
        count_repetitions s angles "situp"
        = (with_count (with_stage s (Some Up)) (exercise_count s + 1),
           exercise_count s + 1))
    /\ (~ ((150 < a)%Q /\ stage s <> Some Down) ->
        ~ ((a < 70)%Q /\ stage s = Some Down) ->
        count_repetitions s angles "situp" = (s, exercise_count s)).
Proof.
  intros p s angles j a Hl Hsel.
  assert (Hm : motion p = Dynamic 150 70) by (injection Hl as <-; reflexivity).
  split; [exact Hm|].
  rewrite (count_repetitions_selects _ _ _ _ _ _ _ _ Hl Hm Hsel).
  rewrite rep_step_situp.
  repeat split.
  - intros Ha Hs. apply Qltb_lt in Ha. apply stage_is_down_false in Hs.
    change (Py.Qltb (inject_Z 150) a = true) in Ha. by rewrite Ha, Hs.
  - intros Ha Hs. apply Qltb_lt in Ha. apply stage_is_down_true in Hs.
    change (Py.Qltb a (inject_Z 70) = true) in Ha.
    rewrite Ha, Hs, andb_false_r. reflexivity.
  - intros H1 H2.
    destruct (Py.Qltb (inject_Z 150) a && negb (stage_is_down (stage s))) eqn:E1.
    { exfalso. apply H1. apply andb_true_iff in E1 as [Ha Hs].
      apply negb_true_iff in Hs.
      split; [by apply Qltb_lt | by apply stage_is_down_false]. }
    destruct (Py.Qltb a (inject_Z 70) && stage_is_down (stage s)) eqn:E2.
    { exfalso. apply H2. apply andb_true_iff in E2 as [Ha Hs].
      split; [by apply Qltb_lt | by apply stage_is_down_true]. }
    reflexivity.
Qed.

Lemma situp_inverted_machine_witness :
  let down : AngleFrame := {[ "left_hip" := 160%Q ]} in
  let up : AngleFrame := {[ "right_hip" := 60%Q ]} in
  let s := with_stage init (Some Down) in
  count_repetitions init down "situp" = (with_stage init (Some Down), 0)
  /\ count_repetitions s up "situp" = (with_count (with_stage s (Some Up)) 1, 1).
Proof.
  intros down up s. split.
  - assert (Hsel : selects ["left_hip"; "right_hip"] down "left_hip" 160%Q)
      by selects_first.
    destruct (situp_inverted_machine _ init down _ _ eq_refl Hsel)
      as (_ & H & _ & _).
    apply H; [unfold Qlt; simpl; lia | discriminate].
  - assert (Hsel : selects ["left_hip"; "right_hip"] up "right_hip" 60%Q).
    { exists 1%nat. split; [reflexivity|]. split; [vm_compute; reflexivity|].
      intros [|i'] j' Hlt Hj'; [|exfalso; lia].
      injection Hj' as <-. vm_compute. reflexivity. }
    destruct (situp_inverted_machine _ s up _ _ eq_refl Hsel)
      as (_ & _ & H & _).
    apply H; [unfold Qlt; simpl; lia | reflexivity].
Defined.

(** C7. [count_repetitions] with a label outside the catalog, or with a
    static pattern (plank), returns [exercise_count] and the analyzer as
    it was.  With a dynamic pattern it reads one angle only, that of the
    first key joint (in listed order) present in the frame: the outcome is
    the state-machine step on that angle, so two frames that select the
    same angle give the same outcome; and when no key joint is present the
    count and the analyzer are unchanged. *)
Theorem count_repetitions_dispatch :
  (forall (s : Analyzer) (angles : AngleFrame) (ty : string),
     ~ In ty catalog_names ->
     count_repetitions s angles ty = (s, exercise_count s))
  /\ (forall (s : Analyzer) (angles : AngleFrame) (ty : string) (p : Pattern),
        lookup_pattern ty = Some p -> is_static p = true ->
        count_repetitions s angles ty = (s, exercise_count s))
  /\ (forall (s : Analyzer) (angles : AngleFrame),
        count_repetitions s angles "plank" = (s, exercise_count s))
  /\ (forall (s : Analyzer) (angles : AngleFrame) (ty : string) (p : Pattern)
             (d u : Z),
        lookup_pattern ty = Some p -> motion p = Dynamic d u ->
        (forall j a,
           selects (key_joints p) angles j a ->
           count_repetitions s angles ty
           = (rep_step s ty d u a, exercise_count (rep_step s ty d u a))
           /\ forall (angles' : AngleFrame) j',
                selects (key_joints p) angles' j' a ->
                count_repetitions s angles' ty = count_repetitions s angles ty)
        /\ (none_present (key_joints p) angles ->
            count_repetitions s angles ty = (s, exercise_count s))).
Proof.
  split; [|split; [|split]].
  - intros s angles ty Hty. apply lookup_pattern_None in Hty.
    unfold count_repetitions. by rewrite Hty.
  - intros s angles ty p Hl Hs. unfold count_repetitions. rewrite Hl.
    unfold is_static in Hs. by destruct (motion p).
  - reflexivity.
  - intros s angles ty p d u Hl Hm. split.
    + intros j a Hsel. split.
      * exact (count_repetitions_selects s _ _ _ _ _ _ _ Hl Hm Hsel).
      * intros angles' j' Hsel'.
        rewrite (count_repetitions_selects s _ _ _ _ _ _ _ Hl Hm Hsel).
        by rewrite (count_repetitions_selects s _ _ _ _ _ _ _ Hl Hm Hsel').
    + intros Hnone. by apply (count_repetitions_none_present s _ _ _ _ _ Hl Hm).
Qed.

Lemma count_repetitions_dispatch_witness :
  let s := with_count (with_stage init (Some Down)) 3 in
  let both : AngleFrame := {[ "left_elbow" := 170%Q; "right_elbow" := 20%Q ]} in
  let knees : AngleFrame := {[ "left_knee" := 170%Q ]} in
  count_repetitions s both "burpee" = (s, 3)
  /\ count_repetitions s both "plank" = (s, 3)
  /\ count_repetitions s both "pushup" = (with_count (with_stage s (Some Up)) 4, 4)
  /\ count_repetitions s knees "pushup" = (s, 3).
Proof.
  intros s both knees.
  destruct count_repetitions_dispatch as (Hunk & Hstatic & _ & Hdyn).
  split; [|split; [|split]].
  - apply Hunk. vm_compute. intuition discriminate.
  - apply (Hstatic s both "plank" _ eq_refl eq_refl).
  - destruct (Hdyn s both "pushup" _ 90 160 eq_refl eq_refl) as [Hsel _].
    assert (S1 : selects ["left_elbow"; "right_elbow"] both "left_elbow" 170%Q)
      by selects_first.
    exact (proj1 (Hsel _ _ S1)).
  - destruct (Hdyn s knees "pushup" _ 90 160 eq_refl eq_refl) as [_ Hnone].
    apply Hnone. intros j [<-|[<-|[]]]; vm_compute; reflexivity.
Defined.

(** ** The sticky label *)

(** What a call can do to [current_exercise]: nothing, clear it ([reset]),
    or set it to a catalog entry whose pattern matched the history as
    examined, which is then the label returned. *)
Lemma step_current_exercise (s : Analyzer) (c : Call) :
  current_exercise (step s c) = current_exercise s
  \/ (c = CallReset /\ current_exercise (step s c) = None)
  \/ (exists angles e p,
        c = CallDetect angles /\ In (e, p) exercise_patterns
        /\ _matches_pattern (with_history s (history_after s angles)) e p = true
        /\ current_exercise (step s c) = Some e
        /\ (detect_exercise s angles).2 = e).
Proof.
  destruct c as [angles|angles ty|angles ty| |]; simpl; auto.
  - destruct (Py.dict_empty angles) eqn:Hemp.
    { apply dict_empty_true in Hemp. subst angles.
      rewrite detect_exercise_empty_eq. auto. }
    apply dict_empty_false in Hemp.
    rewrite (detect_exercise_nonempty _ _ Hemp). cbv zeta.
    destruct (_ <? _)%nat eqn:Hlen; [auto|].
    destruct (first_match (with_history s (history_after s angles)) exercise_patterns)
      as [e|] eqn:E; [|auto].
    right; right. destruct (first_match_In _ _ _ E) as (p & Hin & Hm).
    exists angles, e, p.
    rewrite (detect_exercise_nonempty _ _ Hemp). cbv zeta. rewrite Hlen, E.
    repeat split; assumption || reflexivity.
  - destruct (count_repetitions_cases s angles ty) as (_ & [E|[[_ E]|[_ E]]]);
      rewrite E; auto.
Qed.

Lemma In_catalog_names (e : string) (p : Pattern) :
  In (e, p) exercise_patterns -> In e catalog_names.
Proof.
  intros H. rewrite <- catalog_names_keys.
  change e with (fst (e, p)). by apply in_map.
Qed.

Lemma reachable_run (calls : list Call) :
  forall s, reachable s -> reachable (run s calls).
Proof.
  induction calls as [|c calls IH]; intros s Hs; simpl; [done|].
  apply IH. by constructor.
Qed.

Lemma reachable_label (s : Analyzer) :
  reachable s ->
  current_exercise s = None
  \/ exists e, current_exercise s = Some e /\ In e catalog_names.
Proof.
  induction 1 as [|s c Hs IH]; [by left|].
  destruct (step_current_exercise s c)
    as [E|[[_ E]|(angles & e & p & _ & Hin & _ & E & _)]].
  - by rewrite E.
  - by left.
  - right. exists e. split; [done|]. by apply (In_catalog_names e p).
Qed.

(** C5. For a non-empty frame, when the history after the append holds
    fewer than 10 frames, [detect_exercise] returns
    [current_exercise or 'unknown']: ['unknown'] when [current_exercise]
    is not set, and [current_exercise] when it is set (to a non-empty
    string, as it always is in a reachable state).  It does not assign
    [current_exercise]: no freshly matched label comes out. *)
Theorem detect_exercise_short_history :
  forall (s : Analyzer) (angles : AngleFrame),
    angles ≠ ∅ ->
    (length (history_after s angles) < 10)%nat ->
    let r := detect_exercise s angles in
    r.2 = Py.or_unknown (current_exercise s)
    /\ (current_exercise s = None -> r.2 = "unknown")
    /\ (forall e, current_exercise s = Some e -> e <> "" -> r.2 = e)
    /\ (reachable s -> forall e, current_exercise s = Some e -> r.2 = e)
    /\ current_exercise r.1 = current_exercise s
    /\ angle_history r.1 = history_after s angles.
Proof.
  intros s angles Hne Hlen r. subst r.
  rewrite (detect_exercise_nonempty _ _ Hne). cbv zeta.
  apply Nat.ltb_lt in Hlen. rewrite Hlen. cbn [fst snd].
  assert (Hset : forall e, current_exercise s = Some e -> e <> "" ->
                           Py.or_unknown (current_exercise s) = e).
  { intros e -> He. cbn. destruct (String.eqb_spec e ""); congruence. }
  split; [reflexivity|]. split; [by intros ->|]. split; [exact Hset|].
  split; [|split; reflexivity].
  intros Hr e He. apply Hset; [done|].
  destruct (reachable_label s Hr) as [E|(e' & E & Hin)]; [congruence|].
  rewrite He in E. injection E as <-. intros ->.
  cbn in Hin. intuition discriminate.
Qed.

Lemma detect_exercise_short_history_witness :
  let s := with_exercise init (Some "squat") in
  let angles : AngleFrame := {[ "left_knee" := 100%Q ]} in
  (detect_exercise s angles).2 = "squat"
  /\ current_exercise (detect_exercise s angles).1 = Some "squat".
Proof.
  intros s angles.
  assert (Hne : angles ≠ ∅) by (apply dict_empty_false; vm_compute; reflexivity).
  assert (Hlen : (length (history_after s angles) < 10)%nat)
    by (vm_compute; lia).
  destruct (detect_exercise_short_history s angles Hne Hlen)
    as (_ & _ & Hset & _ & Hcur & _).
  split.
  - apply Hset; [reflexivity | discriminate].
  - exact Hcur.
Defined.

(** C6. In every reachable state [current_exercise] is [None] or one of
    the six catalog names, never ['unknown'].  A call leaves it unchanged,
    clears it ([reset]) or sets it to a catalog exercise whose pattern
    matched, which [detect_exercise] then returns; and when no catalog
    pattern matches, [detect_exercise] leaves it unchanged and returns it
    if set, ['unknown'] otherwise. *)
Theorem current_exercise_invariant :
  forall s : Analyzer,
    reachable s ->
    (current_exercise s = None
     \/ exists e, current_exercise s = Some e /\ In e catalog_names)
    /\ current_exercise s <> Some "unknown"
    /\ (forall c : Call,
          current_exercise (step s c) = current_exercise s
          \/ (c = CallReset /\ current_exercise (step s c) = None)
          \/ (exists angles e p,
                c = CallDetect angles /\ In (e, p) exercise_patterns
                /\ _matches_pattern (with_history s (history_after s angles)) e p = true
                /\ current_exercise (step s c) = Some e
                /\ (detect_exercise s angles).2 = e))
    /\ (forall angles : AngleFrame,
          angles ≠ ∅ ->
          (forall e p, In (e, p) exercise_patterns ->
             _matches_pattern (with_history s (history_after s angles)) e p = false) ->
          current_exercise (detect_exercise s angles).1 = current_exercise s
          /\ (detect_exercise s angles).2 = Py.or_unknown (current_exercise s)
          /\ (forall e, current_exercise s = Some e ->
                (detect_exercise s angles).2 = e)).
Proof.
  intros s Hs.
  pose proof (reachable_label s Hs) as Hinv.
  assert (Hunk : current_exercise s <> Some "unknown").
  { destruct Hinv as [E|(e & E & Hin)]; rewrite E; [discriminate|].
    intros [= ->]. simpl in Hin. intuition discriminate. }
  split; [exact Hinv|]. split; [exact Hunk|]. split.
  - intros c. apply step_current_exercise.
  - intros angles Hne Hno. apply first_match_None in Hno.
    rewrite (detect_exercise_nonempty _ _ Hne). cbv zeta. rewrite Hno.
    assert (Hret : forall e, current_exercise s = Some e ->
                             Py.or_unknown (current_exercise s) = e).
    { intros e E. destruct Hinv as [E'|(e' & E' & Hin)]; [congruence|].
      rewrite E. simpl. destruct (String.eqb_spec e ""); [|done].
      subst e. rewrite E in E'. injection E' as <-.
      simpl in Hin. intuition discriminate. }
    destruct (_ <? _)%nat; simpl; auto.
Qed.

Lemma current_exercise_invariant_witness :
  let calls :=
    map (fun a => CallDetect {[ "left_elbow" := inject_Z a ]})
        [170; 150; 120; 90; 80; 95; 130; 160; 165; 170] in
  let s := run init calls in
  reachable s
  /\ (current_exercise s = None
      \/ exists e, current_exercise s = Some e /\ In e catalog_names)
  /\ current_exercise s <> Some "unknown".
Proof.
  intros calls s.
  assert (Hr : reachable s) by (apply reachable_run; constructor).
  split; [exact Hr|].
  destruct (current_exercise_invariant s Hr) as (H1 & H2 & _).
  split; assumption.
Defined.

(** ** Form evaluator *)






(** ** Pattern matching on the history *)

Lemma Qmax_cases (x y : Q) : Qmax x y = x \/ Qmax x y = y.
Proof.
  unfold Qmax, GenericMinMax.gmax. destruct (x ?= y)%Q; auto.
Qed.

Lemma Qmin_cases (x y : Q) : Qmin x y = x \/ Qmin x y = y.
Proof.
  unfold Qmin, GenericMinMax.gmin. destruct (x ?= y)%Q; auto.
Qed.

Lemma max_list_In (xs : list Q) : forall x, In (Py.max_list x xs) (x :: xs).
Proof.
  unfold Py.max_list.
  induction xs as [|y xs IH]; intros x; [by left|].
  cbn [fold_left]. destruct (IH (Qmax x y)) as [E|Hin].
  - rewrite <- E. destruct (Qmax_cases x y) as [->| ->]; [by left|right; by left].
  - right. by right.
Qed.

Lemma min_list_In (xs : list Q) : forall x, In (Py.min_list x xs) (x :: xs).
Proof.
  unfold Py.min_list.
  induction xs as [|y xs IH]; intros x; [by left|].
  cbn [fold_left]. destruct (IH (Qmin x y)) as [E|Hin].
  - rewrite <- E. destruct (Qmin_cases x y) as [->| ->]; [by left|right; by left].
  - right. by right.
Qed.

Lemma joint_readings_In (joint : string) (frames : list AngleFrame) (a : Q) :
  In a (joint_readings joint frames) <->
  exists f, In f frames /\ f !! joint = Some a.
Proof.
  unfold joint_readings. rewrite <- list_elem_of_In, list_elem_of_omap.
  split; intros (f & Hf & Ha); exists f; split; try done;
    by apply list_elem_of_In.
Qed.

Lemma check_dynamic_movement_false (s : Analyzer) (p : Pattern) :
  (forall joint f1 f2 a1 a2,
     In joint (key_joints p) ->
     In f1 (Py.last_n 15 (angle_history s)) ->
     In f2 (Py.last_n 15 (angle_history s)) ->
     f1 !! joint = Some a1 -> f2 !! joint = Some a2 -> (a1 - a2 <= 40)%Q) ->
  _check_dynamic_movement s p = false.
Proof.
  intros H. unfold _check_dynamic_movement. cbv zeta.
  apply not_true_is_false. intros Hex. apply existsb_exists in Hex.
  destruct Hex as (joint & Hj & Hb).
  destruct (joint_readings joint (Py.last_n 15 (angle_history s)))
    as [|x xs] eqn:E; [discriminate|].
  apply Qltb_lt in Hb.
  pose proof (max_list_In xs x) as Hmax. pose proof (min_list_In xs x) as Hmin.
  rewrite <- E in Hmax, Hmin.
  apply joint_readings_In in Hmax as (f1 & Hf1 & Ha1).
  apply joint_readings_In in Hmin as (f2 & Hf2 & Ha2).
  pose proof (H joint f1 f2 _ _ Hj Hf1 Hf2 Ha1 Ha2) as Hle.
  exact (Qlt_not_le _ _ Hb Hle).
Qed.

Lemma check_static_position_vacuous (s : Analyzer) (p : Pattern) :
  (forall f joint, In f (Py.last_n 10 (angle_history s)) ->
                   In joint (key_joints p) -> f !! joint = None) ->
  _check_static_position s p = true.
Proof.
  intros H. unfold _check_static_position. cbv zeta.
  destruct (ideal_range p) as [lo hi].
  apply forallb_forall. intros f Hf.
  apply forallb_forall. intros joint Hj.
  by rewrite (H f joint Hf Hj).
Qed.

(** C9 (amended). The static match succeeds vacuously.  Take the history
    as [detect_exercise] examines it, that is with the new non-empty frame
    appended: when it holds at least 10 frames, none of its last 10 frames
    has left_hip or right_hip, and no key joint of a dynamic pattern spans
    more than 40 degrees over its last 15 frames, [detect_exercise] sets
    [current_exercise] to ['plank'] and returns ['plank']. *)
Theorem plank_matches_without_hip_data :
  forall (s : Analyzer) (angles : AngleFrame),
    angles ≠ ∅ ->
    (10 <= length (history_after s angles))%nat ->
    no_hip_data (Py.last_n 10 (history_after s angles)) ->
    no_dynamic_movement (Py.last_n 15 (history_after s angles)) ->
    detect_exercise s angles
    = (with_exercise (with_history s (history_after s angles)) (Some "plank"),
       "plank").
Proof.
  intros s angles Hne Hlen Hhip Hdyn.
  rewrite (detect_exercise_nonempty _ _ Hne). cbv zeta.
  assert (E : (length (history_after s angles) <? 10)%nat = false)
    by (apply Nat.ltb_ge; lia).
  rewrite E.
  set (s1 := with_history s (history_after s angles)).
  assert (Hd : forall name p d u,
             In (name, p) exercise_patterns -> motion p = Dynamic d u ->
             _matches_pattern s1 name p = false).
  { intros name p d u Hin Hm. unfold _matches_pattern, is_static. rewrite Hm.
    apply check_dynamic_movement_false.
    intros joint f1 f2 a1 a2 Hj Hf1 Hf2 Ha1 Ha2.
    exact (Hdyn name p d u joint f1 f2 a1 a2 Hin Hm Hj Hf1 Hf2 Ha1 Ha2). }
  assert (Hs : forall p, key_joints p = ["left_hip"; "right_hip"] ->
                         motion p = Static ->
                         _matches_pattern s1 "plank" p = true).
  { intros p Hk Hm. unfold _matches_pattern, is_static. rewrite Hm.
    apply check_static_position_vacuous.
    intros f joint Hf Hj. destruct (Hhip f Hf) as [Hl Hr].
    rewrite Hk in Hj. destruct Hj as [<-|[<-|[]]]; assumption. }
  unfold exercise_patterns in *. cbn [first_match].
  rewrite (Hd "pushup" _ 90 160); [|cbn; tauto|reflexivity].
  rewrite (Hd "squat" _ 90 160); [|cbn; tauto|reflexivity].
  rewrite (Hd "situp" _ 150 70); [|cbn; tauto|reflexivity].
  rewrite (Hd "jumping_jack" _ 30 150); [|cbn; tauto|reflexivity].
  rewrite (Hd "lunge" _ 90 160); [|cbn; tauto|reflexivity].
  rewrite Hs; reflexivity.
Qed.

Lemma In_last_n {A} (n : nat) (l : list A) (x : A) :
  In x (Py.last_n n l) -> In x l.
Proof.
  unfold Py.last_n. rewrite <- !list_elem_of_In. apply subseteq_drop.
Qed.

Lemma no_dynamic_movement_constant (fr : AngleFrame) (frames : list AngleFrame) :
  (forall f, In f frames -> f = fr) -> no_dynamic_movement frames.
Proof.
  intros Hall name p d u joint f1 f2 a1 a2 _ _ _ Hf1 Hf2 Ha1 Ha2.
  rewrite (Hall _ Hf1) in Ha1. rewrite (Hall _ Hf2) in Ha2.
  rewrite Ha1 in Ha2. injection Ha2 as <-.
  lra.
Qed.

Lemma plank_matches_without_hip_data_witness :
  let fr : AngleFrame := {[ "left_elbow" := 100%Q ]} in
  let s := run init (repeat (CallDetect fr) 9) in
  detect_exercise s fr
  = (with_exercise (with_history s (history_after s fr)) (Some "plank"), "plank").
Proof.
  intros fr s.
  assert (Hh : history_after s fr = repeat fr 10) by (vm_compute; reflexivity).
  assert (Hall : forall n f, In f (Py.last_n n (history_after s fr)) -> f = fr).
  { intros n f Hf. apply In_last_n in Hf. rewrite Hh in Hf.
    exact (repeat_spec _ _ _ Hf). }
  apply plank_matches_without_hip_data.
  - apply dict_empty_false. vm_compute. reflexivity.
  - rewrite Hh. simpl. lia.
  - intros f Hf. rewrite (Hall _ _ Hf). split; vm_compute; reflexivity.
  - apply (no_dynamic_movement_constant fr). apply Hall.
Defined.

(** C9 as stated fails: the conditions are put on the state before the
    call, but the frame passed to [detect_exercise] is itself examined.
    After ten frames with left_elbow at 100 the state has 10 history
    frames, no hip data and no movement; a frame with left_elbow at 170
    then makes the elbow span 70 degrees and the call returns ['pushup']. *)
Lemma plank_not_from_prior_state :
  let fr : AngleFrame := {[ "left_elbow" := 100%Q ]} in
  let s := run init (repeat (CallDetect fr) 10) in
  let angles : AngleFrame := {[ "left_elbow" := 170%Q ]} in
  (10 <= length (angle_history s))%nat
  /\ no_hip_data (Py.last_n 10 (angle_history s))
  /\ no_dynamic_movement (Py.last_n 15 (angle_history s))
  /\ angles ≠ ∅
  /\ (detect_exercise s angles).2 = "pushup"
  /\ (detect_exercise s angles).2 <> "plank".
Proof.
  intros fr s angles.
  assert (Hh : angle_history s = repeat fr 10) by (vm_compute; reflexivity).
  assert (Hall : forall n f, In f (Py.last_n n (angle_history s)) -> f = fr).
  { intros n f Hf. apply In_last_n in Hf. rewrite Hh in Hf.
    exact (repeat_spec _ _ _ Hf). }
  assert (Hres : (detect_exercise s angles).2 = "pushup")
    by (vm_compute; reflexivity).
  split; [rewrite Hh; simpl; lia|].
  split; [intros f Hf; rewrite (Hall _ _ Hf); split; vm_compute; reflexivity|].
  split; [apply (no_dynamic_movement_constant fr); apply Hall|].
  split; [apply dict_empty_false; vm_compute; reflexivity|].
  split; [exact Hres|]. rewrite Hres. discriminate.
Qed.

(** ** Binary64 rounding *)




Lemma round_zero (d : Z) : F64.round 0 d = (0, 0).
Proof. reflexivity. Qed.










(** ** The consistency scores and the counts of the specification *)

Lemma sum_acc (l : list Z) : forall a, fold_left Z.add l a = a + Py.sum l.
Proof.
  unfold Py.sum. induction l as [|x l IH]; intros a; cbn [fold_left]; [lia|].
  rewrite (IH (a + x)), (IH (0 + x)). lia.
Qed.

Lemma sum_cons (x : Z) (l : list Z) : Py.sum (x :: l) = x + Py.sum l.
Proof. unfold Py.sum at 1. cbn [fold_left]. rewrite sum_acc. lia. Qed.

Lemma sum_app (l1 l2 : list Z) : Py.sum (l1 ++ l2) = Py.sum l1 + Py.sum l2.
Proof.
  induction l1 as [|x l1 IH]; [reflexivity|].
  rewrite <- app_comm_cons, !sum_cons, IH. lia.
Qed.

Lemma consistency_consistentb (prev cur : AngleFrame) (j : string) (v v0 : Q) :
  cur !! j = Some v -> prev !! j = Some v0 ->
  consistency v v0 = if consistentb prev cur j then 1 else 0.
Proof.
  intros Hc Hp. unfold consistency, consistentb, delta, angle_of.
  rewrite Hc, Hp. reflexivity.
Qed.

Lemma omap_cons {A B} (f : A -> option B) (x : A) (l : list A) :
  omap f (x :: l) = match f x with Some y => y :: omap f l | None => omap f l end.
Proof. reflexivity. Qed.

Lemma joint_scores_count (prev cur : AngleFrame) (l : list (string * Q)) :
  NoDup l.*1 ->
  (forall jv, jv ∈ l -> cur !! jv.1 = Some jv.2) ->
  length (omap (joint_score prev) l)
  = size (dom prev ∩ (list_to_set l.*1 : gset string))
  /\ Py.sum (omap (joint_score prev) l)
     = Z.of_nat (size (filter (fun j => consistentb prev cur j = true)
                              (dom prev ∩ (list_to_set l.*1 : gset string)))).
Proof.
  induction l as [|[j v] l IH]; intros Hnd Hin.
  - cbn.
    assert (E1 : filter (λ j, consistentb prev cur j = true)
                        (dom prev ∩ (∅ : gset string)) = ∅) by set_solver.
    assert (E2 : dom prev ∩ (∅ : gset string) = ∅) by set_solver.
    by rewrite E1, E2, size_empty.
  - cbn [fmap list_fmap fst list_to_set] in *.
    apply NoDup_cons in Hnd as [Hj Hnd].
    destruct IH as [IHl IHs]; [done| |].
    { intros jv Hjv. apply Hin. by right. }
    assert (Hjl : j ∉ (list_to_set l.*1 : gset string)) by set_solver.
    rewrite omap_cons.
    assert (Ejs : joint_score prev (j, v)
                  = match prev !! j with
                    | Some v0 => Some (consistency v v0)
                    | None => None
                    end) by reflexivity.
    rewrite Ejs. clear Ejs.
    destruct (prev !! j) as [v0|] eqn:Hp.
    + assert (Hd : j ∈ dom prev) by (apply elem_of_dom; eauto).
      assert (E : dom prev ∩ ({[j]} ∪ list_to_set l.*1)
                  = {[j]} ∪ (dom prev ∩ (list_to_set l.*1 : gset string)))
        by set_solver.
      rewrite E. clear E.
      set (S := dom prev ∩ (list_to_set l.*1 : gset string)) in *.
      assert (HjS : j ∉ S) by set_solver.
      cbn [length]. rewrite sum_cons, IHl, IHs.
      split; [rewrite size_union, size_singleton by set_solver; done|].
      rewrite (consistency_consistentb prev cur j v v0);
        [|by apply (Hin (j, v)); left|done].
      destruct (consistentb prev cur j) eqn:Hc.
      * assert (E : filter (λ j0, consistentb prev cur j0 = true) ({[j]} ∪ S)
                    = {[j]} ∪ filter (λ j0, consistentb prev cur j0 = true) S)
          by set_solver.
        rewrite E, size_union, size_singleton by set_solver. lia.
      * assert (E : filter (λ j0, consistentb prev cur j0 = true) ({[j]} ∪ S)
                    = filter (λ j0, consistentb prev cur j0 = true) S).
        { apply set_eq. intros x.
          rewrite !elem_of_filter, elem_of_union, elem_of_singleton.
          split; [|tauto]. intros [Hx [->|Hx']]; [congruence|tauto]. }
        rewrite E. lia.
    + assert (Hd : j ∉ dom prev) by (by apply not_elem_of_dom).
      assert (E : dom prev ∩ ({[j]} ∪ list_to_set l.*1)
                  = dom prev ∩ (list_to_set l.*1 : gset string)) by set_solver.
      by rewrite E.
Qed.

Lemma pair_scores_omap (prev cur : AngleFrame) :
  pair_scores prev cur = omap (joint_score prev) (map_to_list cur).
Proof.
  unfold pair_scores.
  destruct (Py.dict_empty cur) eqn:Ec.
  { apply dict_empty_true in Ec. subst. by rewrite map_to_list_empty. }
  destruct (Py.dict_empty prev) eqn:Ep; [|reflexivity].
  apply dict_empty_true in Ep. subst. cbn [negb andb].
  induction (map_to_list cur) as [|jv l IH]; [done|].
  rewrite omap_cons. unfold joint_score at 1. by rewrite lookup_empty.
Qed.

Lemma pair_scores_count (prev cur : AngleFrame) :
  length (pair_scores prev cur) = size (shared_joints prev cur)
  /\ Py.sum (pair_scores prev cur) = Z.of_nat (size (consistent_joints prev cur)).
Proof.
  rewrite pair_scores_omap. unfold consistent_joints, shared_joints.
  assert (E : dom cur = (list_to_set (map_to_list cur).*1 : gset string)).
  { apply leibniz_equiv. apply dom_alt. }
  rewrite E. apply joint_scores_count.
  - apply NoDup_fst_map_to_list.
  - intros [j v] H. by apply elem_of_map_to_list.
Qed.

Lemma scores_from_count (rest : list AngleFrame) :
  forall first,
    length (scores_from first rest) = total_comparisons (first :: rest)
    /\ Py.sum (scores_from first rest)
       = Z.of_nat (consistent_count (first :: rest)).
Proof.
  induction rest as [|cur rest IH]; intros first; [done|].
  cbn [scores_from]. destruct (IH cur) as [IHl IHs].
  destruct (pair_scores_count first cur) as [Hl Hs].
  rewrite length_app, sum_app, IHl, IHs, Hl, Hs.
  unfold total_comparisons, consistent_count, consecutive_pairs.
  cbn [tail zip zip_with sum_list_with fst snd]. split; lia.
Qed.

Lemma consistency_scores_count (frames : list AngleFrame) :
  length (consistency_scores frames) = total_comparisons frames
  /\ Py.sum (consistency_scores frames) = Z.of_nat (consistent_count frames).
Proof.
  destruct frames as [|first rest]; [done|]. apply scores_from_count.
Qed.


Lemma sum_list_with_ext {A} (f g : A -> nat) (l : list A) :
  (forall x, In x l -> f x = g x) -> sum_list_with f l = sum_list_with g l.
Proof.
  induction l as [|x l IH]; intros H; [done|].
  cbn [sum_list_with]. rewrite (H x) by (by left).
  rewrite IH; [done|]. intros y Hy. apply H. by right.
Qed.

Lemma sum_list_with_zero {A} (l : list A) : sum_list_with (fun _ => 0%nat) l = 0%nat.
Proof. induction l as [|x l IH]; [done|]. cbn [sum_list_with]. by rewrite IH. Qed.

Lemma nothing_shared_total (frames : list AngleFrame) :
  nothing_shared frames -> total_comparisons frames = 0%nat.
Proof.
  intros H. unfold total_comparisons.
  rewrite (sum_list_with_ext _ (fun _ => 0%nat)); [apply sum_list_with_zero|].
  intros [prev cur] Hin. cbn [fst snd]. by rewrite (H prev cur Hin), size_empty.
Qed.




(** The score in terms of the two counts of the specification. *)
Lemma calculate_quality_score_counts (s : Analyzer) :
  _calculate_quality_score s =
    if (length (angle_history s) <? 10)%nat then Some 0
    else
      let recent := Py.last_n 10 (angle_history s) in
      if (total_comparisons recent =? 0)%nat then Some 0
      else Some (percent (Z.of_nat (consistent_count recent))
                         (Z.of_nat (total_comparisons recent))).
Proof.
  unfold _calculate_quality_score.
  destruct (_ <? _)%nat; [reflexivity|]. cbv zeta.
  destruct (consistency_scores_count (Py.last_n 10 (angle_history s))) as [Hl Hs].
  destruct (consistency_scores (Py.last_n 10 (angle_history s))) as [|x l] eqn:E.
  - cbn [length] in Hl. by rewrite <- Hl.
  - rewrite Hs, Hl. cbn [length] in Hl.
    set (t := total_comparisons (Py.last_n 10 (angle_history s))) in *.
    destruct (Nat.eqb_spec t 0); [lia|].
    unfold F64.truediv.
    destruct (Z.eqb_spec (Z.of_nat t) 0); [lia|]. reflexivity.
Qed.

(** C10. [_calculate_quality_score] always returns a number: the division
    is reached only with a non-empty list of comparisons, so never with a
    zero divisor.  When the history holds at least 10 frames and no
    consecutive pair of the last 10 shares a joint (a pair with an empty
    frame shares none), no comparison is collected and the result is 0. *)
Theorem quality_score_total :
  (forall s : Analyzer, exists q : Z, _calculate_quality_score s = Some q)
  /\ (forall s : Analyzer,
        (10 <= length (angle_history s))%nat ->
        nothing_shared (Py.last_n 10 (angle_history s)) ->
        consistency_scores (Py.last_n 10 (angle_history s)) = []
        /\ _calculate_quality_score s = Some 0)
  /\ (forall prev cur : AngleFrame,
        prev = ∅ \/ cur = ∅ -> shared_joints prev cur = ∅).
Proof.
  split; [|split].
  - intros s. rewrite calculate_quality_score_counts.
    destruct (_ <? _)%nat; [eauto|]. cbv zeta.
    destruct (_ =? _)%nat; eauto.
  - intros s Hlen Hno.
    pose proof (nothing_shared_total _ Hno) as Ht.
    destruct (consistency_scores_count (Py.last_n 10 (angle_history s))) as [Hl _].
    rewrite Ht in Hl. split; [by apply length_zero_iff_nil|].
    rewrite calculate_quality_score_counts. cbv zeta. rewrite Ht.
    by destruct (_ <? _)%nat.
  - intros prev cur [-> | ->]; unfold shared_joints; rewrite dom_empty_L; set_solver.
Qed.

Lemma quality_score_total_witness :
  let elbow : AngleFrame := {[ "left_elbow" := 100%Q ]} in
  let knee : AngleFrame := {[ "left_knee" := 100%Q ]} in
  let s := run init (concat (repeat [CallDetect elbow; CallDetect knee] 5)) in
  _calculate_quality_score s = Some 0.
Proof.
  intros elbow knee s.
  destruct quality_score_total as (_ & H & _).
  apply H.
  - vm_compute. lia.
  - assert (Hh : Py.last_n 10 (angle_history s)
                 = concat (repeat [elbow; knee] 5)) by (vm_compute; reflexivity).
    rewrite Hh. intros prev cur Hin.
    assert (E1 : shared_joints elbow knee = ∅) by (vm_compute; reflexivity).
    assert (E2 : shared_joints knee elbow = ∅) by (vm_compute; reflexivity).
    cbn [concat repeat app consecutive_pairs tail zip zip_with In] in Hin.
    repeat (destruct Hin as [Hin|Hin]; [injection Hin as <- <-; assumption|]).
    destruct Hin.
Defined.





(** ** Further properties of the analyzer *)

Lemma count_repetitions_frame (s : Analyzer) (angles : AngleFrame) (ty : string) :
  let s' := (count_repetitions s angles ty).1 in
  angle_history s' = angle_history s
  /\ current_exercise s' = current_exercise s
  /\ feedback_messages s' = feedback_messages s.
Proof.
  destruct (count_repetitions_cases s angles ty) as (_ & [E|[[_ E]|[_ E]]]);
    cbv zeta; rewrite E; auto.
Qed.

Lemma reachable_history (s : Analyzer) :
  reachable s ->
  (length (angle_history s) <= history_maxlen)%nat
  /\ (current_exercise s <> None -> (10 <= length (angle_history s))%nat).
Proof.
  unfold history_maxlen.
  induction 1 as [|s c Hs [IHl IHc]]; [split; [cbn; lia|done]|].
  destruct c as [angles|angles ty|angles ty| |]; cbn [step]; [| |done|done|].
  - destruct (Py.dict_empty angles) eqn:Hemp.
    { apply dict_empty_true in Hemp. subst.
      by rewrite detect_exercise_empty_eq. }
    apply dict_empty_false in Hemp.
    rewrite (detect_exercise_nonempty _ _ Hemp). cbv zeta.
    pose proof (length_deque_append 30 (angle_history s) angles ltac:(lia) IHl) as Hl.
    change (Py.deque_append 30 (angle_history s) angles)
      with (history_after s angles) in Hl.
    destruct (Nat.ltb_spec (length (history_after s angles)) 10) as [Hlt|Hge].
    + cbn [fst angle_history current_exercise with_history]. split; [lia|].
      intros Hset. specialize (IHc Hset). lia.
    + destruct (first_match _ _);
        cbn [fst angle_history current_exercise with_history with_exercise];
        split; intros; lia.
  - destruct (count_repetitions_frame s angles ty) as (-> & -> & _). done.
  - split; [cbn; lia|done].
Qed.

(** X1. The history never holds more than 30 frames. *)
Theorem history_bounded :
  forall s : Analyzer, reachable s -> (length (angle_history s) <= 30)%nat.
Proof. intros s Hs. apply (reachable_history s Hs). Qed.

Lemma history_bounded_witness :
  (length (angle_history
     (run init (repeat (CallDetect (elbow_frame 100)) 40))) <= 30)%nat.
Proof. apply history_bounded. apply reachable_run. constructor. Defined.

(** X2. A label needs ten frames: in a reachable state, whenever the
    history after the append holds fewer than 10 frames, no exercise is
    set and [detect_exercise] returns ['unknown']. *)
Theorem first_frames_unknown :
  forall (s : Analyzer) (angles : AngleFrame),
    reachable s ->
    (length (history_after s angles) < 10)%nat ->
    current_exercise s = None /\ (detect_exercise s angles).2 = "unknown".
Proof.
  intros s angles Hs Hlen.
  destruct (reachable_history s Hs) as [Hl Hc]. unfold history_maxlen in Hl.
  pose proof (length_deque_append 30 (angle_history s) angles ltac:(lia) Hl) as Hl'.
  change (Py.deque_append 30 (angle_history s) angles)
    with (history_after s angles) in Hl'.
  assert (Hnone : current_exercise s = None).
  { destruct (current_exercise s) eqn:E; [|done].
    assert (10 <= length (angle_history s))%nat by (apply Hc; congruence). lia. }
  split; [exact Hnone|].
  destruct (Py.dict_empty angles) eqn:Hemp.
  { apply dict_empty_true in Hemp. subst. by rewrite detect_exercise_empty_eq. }
  apply dict_empty_false in Hemp.
  rewrite (detect_exercise_nonempty _ _ Hemp). cbv zeta.
  apply Nat.ltb_lt in Hlen. rewrite Hlen, Hnone. reflexivity.
Qed.

Lemma first_frames_unknown_witness :
  let s := run init (map (fun a => CallDetect (elbow_frame a))
                         [170; 120; 80; 120; 170; 120; 80; 120]) in
  current_exercise s = None
  /\ (detect_exercise s (elbow_frame 170)).2 = "unknown".
Proof.
  intros s. apply first_frames_unknown.
  - apply reachable_run. constructor.
  - vm_compute. lia.
Defined.

(** The push-up scenario of the specification: with left_elbow at
    170, 150, 120, 90, 80, 95, 130, 160, 165, 170 the stage becomes
    ['down'] at 80 (90 is not below the threshold), is still ['down'] at
    160 (not above the threshold) and becomes ['up'] at 165, where the
    count becomes 1; it is 1 at the end. *)
Theorem pushup_scenario :
  let feed l := run init (map (fun a => CallCount (elbow_frame a) "pushup") l) in
  let seen s := (stage s, exercise_count s) in
  seen (feed [170; 150; 120; 90]) = (None, 0)
  /\ seen (feed [170; 150; 120; 90; 80]) = (Some Down, 0)
  /\ seen (feed [170; 150; 120; 90; 80; 95; 130; 160]) = (Some Down, 0)
  /\ seen (feed [170; 150; 120; 90; 80; 95; 130; 160; 165]) = (Some Up, 1)
  /\ seen (feed [170; 150; 120; 90; 80; 95; 130; 160; 165; 170]) = (Some Up, 1).
Proof. cbv zeta. repeat apply conj; vm_compute; reflexivity. Qed.

(** The form scenario of the specification: a push-up in stage
    ['down'] with left_elbow at 100 (ideal maximum 90) gets the single
    message "Go deeper! Left Elbow angle: 100" followed by the degree
    sign. *)
Theorem go_deeper_scenario :
  evaluate_form (with_stage init (Some Down)) (elbow_frame 100) "pushup"
  = [String.append "Go deeper! Left Elbow angle: 100" Py.degree].
Proof. vm_compute. reflexivity. Qed.

Lemma count_pairs_In (n : nat) (c t : Z) :
  0 <= c <= t -> 0 < t <= Z.of_nat n -> In (c, t) (count_pairs n).
Proof.
  intros Hc Ht. unfold count_pairs. apply in_flat_map.
  exists (Z.to_nat t). split; [apply in_seq; lia|].
  apply in_map_iff. exists (Z.to_nat c). split; [f_equal; lia|].
  apply in_seq. lia.
Qed.

(** X3. The binary64 model of the score arithmetic agrees with the
    kernel's IEEE-754 doubles: for all counts [0 <= c <= t <= 64],
    [t > 0], [int(c / t * 100)] computed on hardware floats is
    [percent c t]. *)
Theorem percent_matches_hardware :
  forall c t : Z,
    0 <= c <= t -> 0 < t <= 64 -> hw_percent c t = Some (percent c t).
Proof.
  intros c t Hc Ht.
  assert (Hall : forallb (fun ct : Z * Z =>
                            match hw_percent ct.1 ct.2 with
                            | Some q => q =? percent ct.1 ct.2
                            | None => false
                            end) (count_pairs 64) = true)
    by (vm_compute; reflexivity).
  rewrite forallb_forall in Hall.
  specialize (Hall (c, t) (count_pairs_In 64 c t Hc ltac:(lia))).
  cbn [fst snd] in Hall.
  destruct (hw_percent c t) as [q|]; [|discriminate].
  apply Z.eqb_eq in Hall. by rewrite Hall.
Qed.

Lemma percent_matches_hardware_witness :
  hw_percent 29 50 = Some (percent 29 50).
Proof. apply percent_matches_hardware; lia. Defined.

(** The double-precision product can fall just short of an integer:
    [int(29 / 50 * 100)] is 57 although [100 * 29 / 50] is exactly 58. *)
Theorem percent_falls_short :
  percent 29 50 = 57 /\ 100 * 29 = 58 * 50 /\ hw_percent 29 50 = Some 57.
Proof. repeat apply conj; vm_compute; reflexivity. Qed.

(** ** The history as a window on the submitted frames *)

Lemma last_n_app_last_n {A} (m : nat) (l k : list A) :
  Py.last_n m (Py.last_n m l ++ k) = Py.last_n m (l ++ k).
Proof.
  destruct (Nat.le_gt_cases (length l) m) as [Hle|Hgt].
  { by rewrite (last_n_all m l Hle). }
  unfold Py.last_n. rewrite !length_app, length_drop.
  replace (length l - (length l - m) + length k - m)%nat with (length k) by lia.
  destruct (Nat.le_gt_cases (length k) m) as [Hk|Hk].
  - rewrite drop_app_le by (rewrite length_drop; lia).
    rewrite drop_drop.
    rewrite (drop_app_le l) by lia. f_equal. f_equal. lia.
  - rewrite drop_app_ge by (rewrite length_drop; lia).
    rewrite (drop_app_ge l) by lia. rewrite length_drop. f_equal. lia.
Qed.

Lemma deque_append_last_n {A} (m : nat) (d : list A) (x : A) :
  (0 < m)%nat -> (length d <= m)%nat ->
  Py.deque_append m d x = Py.last_n m (d ++ [x]).
Proof.
  intros Hm Hd. unfold Py.deque_append, Py.last_n. rewrite length_app. cbn [length].
  destruct (Nat.leb_spec m (length d)).
  - replace (length d + 1 - m)%nat with 1%nat by lia.
    rewrite drop_app_le by lia. reflexivity.
  - replace (length d + 1 - m)%nat with 0%nat by lia. reflexivity.
Qed.

Lemma step_submitted (s : Analyzer) (c : Call) (acc : list AngleFrame) :
  angle_history s = Py.last_n 30 acc ->
  angle_history (step s c) = Py.last_n 30 (submitted acc c).
Proof.
  intros Hs. destruct c as [angles|angles ty|angles ty| |]; cbn [step submitted];
    try done.
  - destruct (Py.dict_empty angles) eqn:Hemp.
    { apply dict_empty_true in Hemp. subst. by rewrite detect_exercise_empty_eq. }
    apply dict_empty_false in Hemp.
    assert (E : angle_history (detect_exercise s angles).1 = history_after s angles).
    { rewrite (detect_exercise_nonempty _ _ Hemp). cbv zeta.
      destruct (_ <? _)%nat; [reflexivity|]. by destruct (first_match _ _). }
    rewrite E. unfold history_after, history_maxlen.
    rewrite deque_append_last_n; [|lia|rewrite Hs, length_last_n; lia].
    rewrite Hs. apply last_n_app_last_n.
  - by destruct (count_repetitions_frame s angles ty) as (-> & _).
Qed.

(** X4. The history is a window on what was submitted: after any
    sequence of calls on a fresh analyzer, [angle_history] holds exactly
    the last 30 of the non-empty frames passed to [detect_exercise] since
    the last [reset], in the order they came. *)
Theorem history_is_last_30_submitted :
  forall calls : list Call,
    angle_history (run init calls) = Py.last_n 30 (frames_since_reset calls).
Proof.
  intros calls. unfold frames_since_reset, run.
  assert (H : forall (l : list Call) s acc,
             angle_history s = Py.last_n 30 acc ->
             angle_history (fold_left step l s)
             = Py.last_n 30 (fold_left submitted l acc)).
  { induction l as [|c l IH]; intros s acc Hs; cbn [fold_left]; [done|].
    apply IH. by apply step_submitted. }
  by apply H.
Qed.

(** ** What detection returns *)

Lemma max_list_ge (xs : list Q) :
  forall x y, In y (x :: xs) -> (y <= Py.max_list x xs)%Q.
Proof.
  unfold Py.max_list.
  induction xs as [|z xs IH]; intros x y Hy; cbn [fold_left].
  - destruct Hy as [->|[]]. apply Qle_refl.
  - destruct Hy as [->|[->|Hy]].
    + apply Qle_trans with (Qmax y z); [apply Q.le_max_l|]. apply IH. by left.
    + apply Qle_trans with (Qmax x y); [apply Q.le_max_r|]. apply IH. by left.
    + apply IH. by right.
Qed.

Lemma min_list_le (xs : list Q) :
  forall x y, In y (x :: xs) -> (Py.min_list x xs <= y)%Q.
Proof.
  unfold Py.min_list.
  induction xs as [|z xs IH]; intros x y Hy; cbn [fold_left].
  - destruct Hy as [->|[]]. apply Qle_refl.
  - destruct Hy as [->|[->|Hy]].
    + apply Qle_trans with (Qmin y z); [|apply Q.le_min_l]. apply IH. by left.
    + apply Qle_trans with (Qmin x y); [|apply Q.le_min_r]. apply IH. by left.
    + apply IH. by right.
Qed.

Lemma check_dynamic_movement_true (s : Analyzer) (p : Pattern) :
  _check_dynamic_movement s p = true <->
  exists joint, In joint (key_joints p)
                /\ joint_moves (Py.last_n 15 (angle_history s)) joint.
Proof.
  unfold _check_dynamic_movement. cbv zeta. rewrite existsb_exists.
  split; intros (joint & Hj & H); exists joint; (split; [exact Hj|]).
  - destruct (joint_readings joint (Py.last_n 15 (angle_history s)))
      as [|x xs] eqn:E; [discriminate|].
    apply Qltb_lt in H.
    pose proof (max_list_In xs x) as Hmax. pose proof (min_list_In xs x) as Hmin.
    rewrite <- E in Hmax, Hmin.
    apply joint_readings_In in Hmax as (f1 & Hf1 & Ha1).
    apply joint_readings_In in Hmin as (f2 & Hf2 & Ha2).
    exists f1, f2, (Py.max_list x xs), (Py.min_list x xs). auto.
  - destruct H as (f1 & f2 & a1 & a2 & Hf1 & Hf2 & Ha1 & Ha2 & Hgt).
    assert (H1 : In a1 (joint_readings joint (Py.last_n 15 (angle_history s))))
      by (apply joint_readings_In; eauto).
    assert (H2 : In a2 (joint_readings joint (Py.last_n 15 (angle_history s))))
      by (apply joint_readings_In; eauto).
    destruct (joint_readings joint (Py.last_n 15 (angle_history s)))
      as [|x xs]; [destruct H1|].
    apply Qltb_lt.
    pose proof (max_list_ge xs x a1 H1). pose proof (min_list_le xs x a2 H2).
    lra.
Qed.

Lemma joint_still_not_moves (frames : list AngleFrame) (joint : string) :
  joint_still frames joint -> ~ joint_moves frames joint.
Proof.
  intros Hs (f1 & f2 & a1 & a2 & Hf1 & Hf2 & Ha1 & Ha2 & Hgt).
  specialize (Hs f1 f2 a1 a2 Hf1 Hf2 Ha1 Ha2). lra.
Qed.

Lemma matches_dynamic (s : Analyzer) (name : string) (p : Pattern) (d u : Z) :
  motion p = Dynamic d u ->
  _matches_pattern s name p = true <->
  exists joint, In joint (key_joints p)
                /\ joint_moves (Py.last_n 15 (angle_history s)) joint.
Proof.
  intros Hm. unfold _matches_pattern, is_static. rewrite Hm.
  apply check_dynamic_movement_true.
Qed.

Lemma matches_dynamic_false (s : Analyzer) (name : string) (p : Pattern) (d u : Z) :
  motion p = Dynamic d u ->
  (forall joint, In joint (key_joints p) ->
                 joint_still (Py.last_n 15 (angle_history s)) joint) ->
  _matches_pattern s name p = false.
Proof.
  intros Hm Hst. apply not_true_is_false. intros H.
  apply (matches_dynamic s name p d u Hm) in H as (joint & Hj & Hmv).
  exact (joint_still_not_moves _ _ (Hst joint Hj) Hmv).
Qed.





Lemma first_match_not_lunge (s : Analyzer) :
  first_match s exercise_patterns <> Some "lunge".
Proof.
  unfold exercise_patterns. cbn [first_match].
  repeat match goal with
  | |- context [if ?b then _ else _] => destruct b eqn:?
  end; try discriminate.
  (* squat did not match, lunge did: the two tests are the same *)
  match goal with
  | H1 : _matches_pattern s "squat" _ = false,
    H2 : _matches_pattern s "lunge" _ = true |- _ =>
      unfold _matches_pattern, is_static, _check_dynamic_movement in H1, H2;
      cbn [motion key_joints] in H1, H2; congruence
  end.
Qed.

Lemma reachable_not_lunge (s : Analyzer) :
  reachable s -> current_exercise s <> Some "lunge".
Proof.
  induction 1 as [|s c Hs IH]; [discriminate|].
  destruct c as [angles|angles ty|angles ty| |]; cbn [step]; try done.
  - destruct (Py.dict_empty angles) eqn:Hemp.
    { apply dict_empty_true in Hemp. subst. by rewrite detect_exercise_empty_eq. }
    apply dict_empty_false in Hemp.
    rewrite (detect_exercise_nonempty _ _ Hemp). cbv zeta.
    destruct (_ <? _)%nat; [exact IH|].
    destruct (first_match (with_history s (history_after s angles)) exercise_patterns)
      as [e|] eqn:E; [|exact IH].
    cbn [fst current_exercise with_exercise]. intros [= ->].
    exact (first_match_not_lunge _ E).
  - by destruct (count_repetitions_frame s angles ty) as (_ & -> & _).
Qed.

(** X6. ['lunge'] is never detected.  Its pattern has the key joints and
    the movement test of ['squat'], which comes first in the catalog: in
    no reachable state is [current_exercise] ['lunge'], and
    [detect_exercise] never returns it. *)
Theorem lunge_never_detected :
  forall (s : Analyzer) (angles : AngleFrame),
    reachable s ->
    current_exercise s <> Some "lunge"
    /\ (detect_exercise s angles).2 <> "lunge".
Proof.
  intros s angles Hs. pose proof (reachable_not_lunge s Hs) as Hcur.
  split; [exact Hcur|].
  pose proof (reachable_not_lunge _ (reachable_step s (CallDetect angles) Hs)) as Hnext.
  cbn [step] in Hnext.
  destruct (Py.dict_empty angles) eqn:Hemp.
  { apply dict_empty_true in Hemp. subst. by rewrite detect_exercise_empty_eq. }
  apply dict_empty_false in Hemp.
  rewrite (detect_exercise_nonempty _ _ Hemp) in Hnext |- *. cbv zeta in Hnext |- *.
  assert (Hor : Py.or_unknown (current_exercise s) <> "lunge").
  { destruct (current_exercise s) as [e|]; cbn; [|discriminate].
    destruct (String.eqb_spec e ""); [discriminate|]. congruence. }
  destruct (_ <? _)%nat; [exact Hor|].
  destruct (first_match _ _) as [e|] eqn:E; [|exact Hor].
  cbn [snd]. intros ->. exact (first_match_not_lunge _ E).
Qed.

Lemma lunge_never_detected_witness :
  let knees (a : Z) : AngleFrame := {[ "left_knee" := inject_Z a ]} in
  let s := run init (repeat (CallDetect (knees 170)) 9) in
  current_exercise s <> Some "lunge"
  /\ (detect_exercise s (knees 85)).2 <> "lunge".
Proof.
  intros knees s. apply lunge_never_detected.
  apply reachable_run. constructor.
Defined.

(** X7. What [detect_exercise] returns in a reachable state: ['unknown']
    or one of the six catalog names; a name other than ['unknown'] is the
    value of [current_exercise] after the call; and for a non-empty frame
    the call returns ['unknown'] exactly when no exercise is set after
    it. *)
Theorem detect_exercise_contract :
  forall (s : Analyzer) (angles : AngleFrame),
    reachable s ->
    let r := detect_exercise s angles in
    In r.2 ("unknown" :: catalog_names)
    /\ (r.2 <> "unknown" -> current_exercise r.1 = Some r.2)
    /\ (angles ≠ ∅ -> (r.2 = "unknown" <-> current_exercise r.1 = None)).
Proof.
  intros s angles Hs r. subst r.
  assert (Hsticky :
            In (Py.or_unknown (current_exercise s)) ("unknown" :: catalog_names)
            /\ (Py.or_unknown (current_exercise s) <> "unknown" ->
                current_exercise s = Some (Py.or_unknown (current_exercise s)))
            /\ (Py.or_unknown (current_exercise s) = "unknown"
                <-> current_exercise s = None)).
  { destruct (reachable_label s Hs) as [E|(e & E & Hin)]; rewrite E; cbn [Py.or_unknown].
    - split; [by left|]. split; [done|]. split; done.
    - assert (Hne : e <> "" /\ e <> "unknown").
      { split; intros ->; cbn in Hin; intuition discriminate. }
      destruct Hne as [Hne1 Hne2].
      destruct (String.eqb_spec e ""); [done|].
      split; [by right|]. split; [done|]. split; [done|discriminate]. }
  destruct (Py.dict_empty angles) eqn:Hemp.
  { apply dict_empty_true in Hemp. subst. rewrite detect_exercise_empty_eq.
    cbn [fst snd]. split; [by left|]. split; [done|]. intros Hne. by destruct Hne. }
  apply dict_empty_false in Hemp.
  rewrite (detect_exercise_nonempty _ _ Hemp). cbv zeta.
  destruct (_ <? _)%nat; cbn [fst snd current_exercise with_history].
  { destruct Hsticky as (H1 & H2 & H3). auto. }
  destruct (first_match (with_history s (history_after s angles)) exercise_patterns)
    as [e|] eqn:E; cbn [fst snd current_exercise with_history with_exercise].
  - destruct (first_match_In _ _ _ E) as (p & Hin & _).
    pose proof (In_catalog_names e p Hin) as Hcat.
    split; [by right|]. split; [done|]. intros _. split; [|discriminate].
    intros ->. cbn in Hcat. intuition discriminate.
  - destruct Hsticky as (H1 & H2 & H3). auto.
Qed.

Lemma detect_exercise_contract_witness :
  let s := run init (repeat (CallDetect (elbow_frame 100)) 3) in
  In (detect_exercise s (elbow_frame 100)).2 ("unknown" :: catalog_names).
Proof.
  intros s.
  assert (Hs : reachable s) by (apply reachable_run; constructor).
  exact (proj1 (detect_exercise_contract s (elbow_frame 100) Hs)).
Defined.




(** ** Between resets *)

(** X9. Between resets nothing is forgotten: along a sequence of calls
    without [reset], from a reachable state, the history never gets
    shorter and an exercise that is set stays set (it may change). *)
Theorem nothing_forgotten_between_resets :
  forall (s : Analyzer) (calls : list Call),
    reachable s ->
    forallb (fun c => negb (is_reset c)) calls = true ->
    (length (angle_history s) <= length (angle_history (run s calls)))%nat
    /\ (current_exercise s <> None -> current_exercise (run s calls) <> None).
Proof.
  intros s calls Hs. revert s Hs.
  induction calls as [|c calls IH]; intros s Hs Hnr; cbn [run fold_left]; [done|].
  cbn [forallb] in Hnr. apply andb_true_iff in Hnr as [Hc Hnr].
  apply negb_true_iff in Hc.
  destruct (IH (step s c) (reachable_step s c Hs) Hnr) as [IHl IHc].
  fold (run (step s c) calls).
  assert (Hstep : (length (angle_history s) <= length (angle_history (step s c)))%nat
                  /\ (current_exercise s <> None -> current_exercise (step s c) <> None)).
  { destruct (reachable_history s Hs) as [Hl _]. unfold history_maxlen in Hl.
    destruct c as [angles|angles ty|angles ty| |]; cbn [step]; try done.
    - destruct (Py.dict_empty angles) eqn:Hemp.
      { apply dict_empty_true in Hemp. subst. by rewrite detect_exercise_empty_eq. }
      apply dict_empty_false in Hemp.
      rewrite (detect_exercise_nonempty _ _ Hemp). cbv zeta.
      pose proof (length_deque_append 30 (angle_history s) angles ltac:(lia) Hl) as E.
      change (Py.deque_append 30 (angle_history s) angles)
        with (history_after s angles) in E.
      destruct (_ <? _)%nat; [split; [cbn; lia|done]|].
      destruct (first_match _ _); (split; [cbn; lia|done]).
    - by destruct (count_repetitions_frame s angles ty) as (-> & -> & _). }
  destruct Hstep as [Hl Hc']. split; [lia|auto].
Qed.

Lemma nothing_forgotten_between_resets_witness :
  let calls := [CallDetect (elbow_frame 100); CallCount (elbow_frame 80) "pushup";
                CallSummary; CallDetect (elbow_frame 90)] in
  (length (angle_history init) <= length (angle_history (run init calls)))%nat.
Proof.
  intros calls.
  exact (proj1 (nothing_forgotten_between_resets init calls reachable_init eq_refl)).
Defined.

(** ** The repetition counter as a hysteresis *)

Lemma rep_step_dead_band s ty d u (a : Q) :
  (ty = "situp" -> (inject_Z u <= a)%Q /\ (a <= inject_Z d)%Q) ->
  (ty <> "situp" -> (inject_Z d <= a)%Q /\ (a <= inject_Z u)%Q) ->
  rep_step s ty d u a = s.
Proof.
  intros Hsit Hoth. unfold rep_step.
  destruct (Py.str_in ty ["pushup"; "squat"; "lunge"]) eqn:E1.
  { apply str_in_In in E1.
    destruct Hoth as [H1 H2]; [intros ->; cbn in E1; intuition discriminate|].
    apply Qltb_ge in H1, H2. by rewrite H1, H2. }
  destruct (String.eqb_spec ty "situp") as [->|Hne].
  { destruct (Hsit eq_refl) as [H1 H2]. apply Qltb_ge in H1, H2. by rewrite H1, H2. }
  destruct (String.eqb_spec ty "jumping_jack"); [|reflexivity].
  destruct (Hoth Hne) as [H1 H2]. apply Qltb_ge in H1, H2. by rewrite H1, H2.
Qed.

Lemma dynamic_thresholds (ty : string) (p : Pattern) (d u : Z) :
  lookup_pattern ty = Some p -> motion p = Dynamic d u ->
  (ty = "situp" /\ u <= d) \/ (ty <> "situp" /\ d <= u).
Proof.
  intros Hl Hm. apply lookup_pattern_In in Hl. cbn [In exercise_patterns] in Hl.
  destruct Hl as [E|[E|[E|[E|[E|[E|[]]]]]]]; injection E as <- <-;
    cbn [motion] in Hm; try discriminate Hm; injection Hm as <- <-;
    first [left; split; [reflexivity|lia] | right; split; [discriminate|lia]].
Qed.

(** X10. The dead band.  For a dynamic exercise, when the angle of the
    selected joint lies between the two thresholds (both included: from
    90 to 160 for push-up, squat and lunge, from 30 to 150 for jumping
    jack, from 70 to 150 for sit-up), [count_repetitions] changes neither
    the stage nor the count, whatever the stage is. *)
Theorem dead_band_changes_nothing :
  forall (s : Analyzer) (angles : AngleFrame) (ty : string) (p : Pattern)
         (d u : Z) (j : string) (a : Q),
    lookup_pattern ty = Some p -> motion p = Dynamic d u ->
    selects (key_joints p) angles j a ->
    (inject_Z (Z.min d u) <= a)%Q -> (a <= inject_Z (Z.max d u))%Q ->
    count_repetitions s angles ty = (s, exercise_count s).
Proof.
  intros s angles ty p d u j a Hl Hm Hsel Hlo Hhi.
  rewrite (count_repetitions_selects s _ _ _ _ _ _ _ Hl Hm Hsel).
  rewrite rep_step_dead_band; [reflexivity| |].
  - intros ->. destruct (dynamic_thresholds _ _ _ _ Hl Hm) as [[_ H]|[H _]]; [|done].
    rewrite Z.min_r in Hlo by lia. rewrite Z.max_l in Hhi by lia. done.
  - intros Hne. destruct (dynamic_thresholds _ _ _ _ Hl Hm) as [[H _]|[_ H]]; [done|].
    rewrite Z.min_l in Hlo by lia. rewrite Z.max_r in Hhi by lia. done.
Qed.

Lemma dead_band_changes_nothing_witness :
  let s := with_stage init (Some Down) in
  count_repetitions s {[ "left_knee" := 160%Q ]} "squat" = (s, 0)
  /\ count_repetitions s {[ "right_hip" := 70%Q ]} "situp" = (s, 0).
Proof.
  intros s. split.
  - apply (dead_band_changes_nothing s _ "squat" _ 90 160 "left_knee" 160%Q
             eq_refl eq_refl); [selects_first | discriminate | discriminate].
  - apply (dead_band_changes_nothing s _ "situp" _ 150 70 "right_hip" 70%Q
             eq_refl eq_refl); [|discriminate|discriminate].
    exists 1%nat. split; [reflexivity|]. split; [vm_compute; reflexivity|].
    intros [|i'] j' Hlt Hj'; [|exfalso; lia].
    injection Hj' as <-. vm_compute. reflexivity.
Defined.

Lemma rep_step_idempotent s ty d u (a : Q) :
  (ty = "situp" -> u <= d) -> (ty <> "situp" -> d <= u) ->
  rep_step (rep_step s ty d u a) ty d u a = rep_step s ty d u a.
Proof.
  intros Hsit Hoth.
  assert (Hle : forall x y : Z, x <= y -> (inject_Z x <= inject_Z y)%Q).
  { intros x y H. unfold Qle. cbn. lia. }
  unfold rep_step.
  destruct (Py.str_in ty ["pushup"; "squat"; "lunge"]) eqn:E1.
  { assert (Hdu : d <= u).
    { apply Hoth. apply str_in_In in E1. intros ->. cbn in E1. intuition discriminate. }
    apply Hle in Hdu.
    destruct (Py.Qltb a (inject_Z d)) eqn:Ha1;
      destruct (Py.Qltb (inject_Z u) a) eqn:Ha2;
      destruct (stage s) as [[]|] eqn:Hst;
      cbn [stage_is_down negb andb stage with_stage with_count];
      rewrite ?Hst, ?Ha1, ?Ha2;
      cbn [stage_is_down negb andb stage with_stage with_count];
      rewrite ?Ha1, ?Ha2; try reflexivity;
      apply Qltb_lt in Ha1; apply Qltb_lt in Ha2; lra. }
  destruct (String.eqb_spec ty "situp") as [->|Hne].
  { assert (Hud : u <= d) by (by apply Hsit). apply Hle in Hud.
    destruct (Py.Qltb (inject_Z d) a) eqn:Ha1;
      destruct (Py.Qltb a (inject_Z u)) eqn:Ha2;
      destruct (stage s) as [[]|] eqn:Hst;
      cbn [stage_is_down negb andb stage with_stage with_count];
      rewrite ?Hst, ?Ha1, ?Ha2;
      cbn [stage_is_down negb andb stage with_stage with_count];
      rewrite ?Ha1, ?Ha2; try reflexivity;
      apply Qltb_lt in Ha1; apply Qltb_lt in Ha2; lra. }
  destruct (String.eqb_spec ty "jumping_jack"); [|reflexivity].
  assert (Hdu : d <= u) by (by apply Hoth). apply Hle in Hdu.
  destruct (Py.Qltb a (inject_Z d)) eqn:Ha1;
    destruct (Py.Qltb (inject_Z u) a) eqn:Ha2;
    destruct (stage s) as [[]|] eqn:Hst;
    cbn [stage_is_down negb andb stage with_stage with_count];
    rewrite ?Hst, ?Ha1, ?Ha2;
    cbn [stage_is_down negb andb stage with_stage with_count];
    rewrite ?Ha1, ?Ha2; try reflexivity;
    apply Qltb_lt in Ha1; apply Qltb_lt in Ha2; lra.
Qed.

(** X11. A held frame is not counted twice: calling [count_repetitions]
    again with the same frame and label returns the same count and leaves
    the analyzer as the first call left it. *)
Theorem count_repetitions_idempotent :
  forall (s : Analyzer) (angles : AngleFrame) (ty : string),
    count_repetitions (count_repetitions s angles ty).1 angles ty
    = count_repetitions s angles ty.
Proof.
  intros s angles ty. unfold count_repetitions.
  destruct (lookup_pattern ty) as [p|] eqn:Hl; [|reflexivity].
  destruct (motion p) as [|d u] eqn:Hm; [reflexivity|]. cbn [fst].
  destruct (selects_or_none (key_joints p) angles) as [(j & a & Hsel)|Hnone].
  - rewrite !(rep_loop_selects _ _ _ _ _ _ _ _ Hsel).
    rewrite rep_step_idempotent; [reflexivity| |].
    + intros ->. destruct (dynamic_thresholds _ _ _ _ Hl Hm) as [[_ H]|[H _]]; done.
    + intros Hne. destruct (dynamic_thresholds _ _ _ _ Hl Hm) as [[H _]|[_ H]]; done.
  - by rewrite !(rep_loop_none _ _ _ _ _ _ Hnone).
Qed.

Lemma step_potential (s : Analyzer) (c : Call) :
  is_reset c = false ->
  2 * exercise_count (step s c) + (if stage_is_down (stage (step s c)) then 1 else 0)
  <= 2 * exercise_count s + (if stage_is_down (stage s) then 1 else 0)
     + Z.of_nat (count_calls [c]).
Proof.
  intros Hr. destruct c as [angles|angles ty|angles ty| |];
    cbn [step]; try discriminate.
  - destruct (detect_exercise_frame s angles) as (-> & -> & _). cbn. lia.
  - destruct (count_repetitions_cases s angles ty) as (_ & [E|[[Hs E]|[Hs E]]]);
      rewrite E; cbn; [lia| |].
    + apply stage_is_down_false in Hs. rewrite Hs. lia.
    + rewrite Hs. cbn. lia.
  - cbn. lia.
  - cbn. lia.
Qed.

Lemma count_calls_cons (c : Call) (calls : list Call) :
  count_calls (c :: calls) = (count_calls [c] + count_calls calls)%nat.
Proof. unfold count_calls. by destruct c. Qed.

(** X12. A repetition takes at least two counting calls: along a
    sequence of calls without [reset], twice the number of repetitions
    gained is at most the number of [count_repetitions] calls, plus one
    if the stage was ['down'] at the start. *)
Theorem repetition_takes_two_calls :
  forall (s : Analyzer) (calls : list Call),
    forallb (fun c => negb (is_reset c)) calls = true ->
    2 * (exercise_count (run s calls) - exercise_count s)
    <= Z.of_nat (count_calls calls) + (if stage_is_down (stage s) then 1 else 0).
Proof.
  intros s calls. revert s.
  assert (H : forall (l : list Call) s,
             forallb (fun c => negb (is_reset c)) l = true ->
             2 * exercise_count (run s l)
             + (if stage_is_down (stage (run s l)) then 1 else 0)
             <= 2 * exercise_count s + (if stage_is_down (stage s) then 1 else 0)
                + Z.of_nat (count_calls l)).
  { induction l as [|c l IH]; intros s Hnr; [cbn; lia|].
    cbn [forallb] in Hnr. apply andb_true_iff in Hnr as [Hc Hnr].
    apply negb_true_iff in Hc.
    cbn [run fold_left]. fold (run (step s c) l).
    specialize (IH (step s c) Hnr). pose proof (step_potential s c Hc).
    rewrite count_calls_cons. lia. }
  intros s Hnr. specialize (H calls s Hnr).
  destruct (stage_is_down (stage (run s calls))); lia.
Qed.

Lemma repetition_takes_two_calls_witness :
  let calls := map (fun a => CallCount (elbow_frame a) "pushup") [80; 170; 80; 170; 80] in
  exercise_count (run init calls) = 2
  /\ 2 * (exercise_count (run init calls) - exercise_count init)
     <= Z.of_nat (count_calls calls) + 0.
Proof.
  intros calls. split; [vm_compute; reflexivity|].
  exact (repetition_takes_two_calls init calls eq_refl).
Defined.

Lemma reachable_count_stage (s : Analyzer) :
  reachable s ->
  0 <= exercise_count s
  /\ (stage s = None -> exercise_count s = 0)
  /\ (stage s = Some Up -> 1 <= exercise_count s).
Proof.
  induction 1 as [|s c Hs (IH0 & IHn & IHu)]; [cbn; repeat split; (lia || discriminate)|].
  destruct c as [angles|angles ty|angles ty| |]; cbn [step]; try done.
  - by destruct (detect_exercise_frame s angles) as (-> & -> & _).
  - destruct (count_repetitions_cases s angles ty) as (_ & [E|[[Hst E]|[Hst E]]]);
      rewrite E; [done| |]; cbn [stage exercise_count with_stage with_count].
    + split; [lia|]. split; [discriminate|discriminate].
    + split; [lia|]. split; [discriminate|]. intros _. lia.
Qed.

(** X13. Count and stage go together: in every reachable state
    [exercise_count] is not negative, it is 0 while the stage is [None],
    and the stage is ['up'] only when at least one repetition has been
    counted. *)
Theorem count_and_stage_invariant :
  forall s : Analyzer,
    reachable s ->
    0 <= exercise_count s
    /\ (stage s = None -> exercise_count s = 0)
    /\ (stage s = Some Up -> 1 <= exercise_count s).
Proof. exact reachable_count_stage. Qed.

Lemma count_and_stage_invariant_witness :
  let s := run init (map (fun a => CallCount (elbow_frame a) "pushup") [80; 170]) in
  stage s = Some Up /\ 1 <= exercise_count s.
Proof.
  intros s. assert (Hs : reachable s) by (apply reachable_run; constructor).
  assert (Hup : stage s = Some Up) by (vm_compute; reflexivity).
  split; [exact Hup|]. by apply (count_and_stage_invariant s Hs).
Defined.


(** ** The form evaluator, message by message *)

Lemma evaluate_form_parts (s : Analyzer) (angles : AngleFrame) (ty : string)
  (p : Pattern) :
  lookup_pattern ty = Some p ->
  evaluate_form s angles ty = (joint_part s angles ty p ++ form_part angles ty p)%list.
Proof.
  intros Hl. unfold evaluate_form, joint_part, form_part. rewrite Hl.
  by destruct (ideal_range p).
Qed.



Lemma joint_feedback_not_down s ty imin imax j a :
  stage s <> Some Down -> joint_feedback s ty imin imax j a = [].
Proof.
  intros H. apply stage_is_down_false in H. unfold joint_feedback. by rewrite H.
Qed.

Lemma joint_part_not_down s angles ty p :
  stage s <> Some Down -> joint_part s angles ty p = [].
Proof.
  intros H. unfold joint_part.
  induction (key_joints p) as [|j l IH]; [done|].
  cbn [flat_map]. rewrite IH.
  destruct (angles !! j); [|done]. by rewrite joint_feedback_not_down.
Qed.

Lemma form_part_messages angles ty p m :
  In m (form_part angles ty p) -> In m form_check_messages.
Proof.
  unfold form_part, back_straight_feedback, knees_aligned_feedback,
    form_check_messages.
  repeat match goal with
  | |- context [if ?b then _ else _] => destruct b
  | |- context [match ?o with Some _ => _ | None => _ end] => destruct o
  end; cbn [In app]; tauto.
Qed.

(** X14. Depth feedback needs the ['down'] stage: when the stage is not
    ['down'], every message of [evaluate_form] is one of the three
    form-check messages (back straight, hips sag, knees aligned); no
    "Go deeper", "Don't go too low" or "Come up higher" is produced,
    whatever the angles are. *)
Theorem no_depth_feedback_outside_down :
  forall (s : Analyzer) (angles : AngleFrame) (ty : string) (m : string),
    stage s <> Some Down ->
    In m (evaluate_form s angles ty) -> In m form_check_messages.
Proof.
  intros s angles ty m Hst Hin.
  destruct (lookup_pattern ty) as [p|] eqn:Hl.
  - rewrite (evaluate_form_parts _ _ _ _ Hl), (joint_part_not_down _ _ _ _ Hst) in Hin.
    by apply form_part_messages in Hin.
  - unfold evaluate_form in Hin. rewrite Hl in Hin. destruct Hin.
Qed.

Lemma no_depth_feedback_outside_down_witness :
  let s := with_stage init (Some Up) in
  let angles : AngleFrame := {[ "left_knee" := 170%Q; "right_knee" := 120%Q ]} in
  In "Keep knees aligned!" (evaluate_form s angles "squat")
  /\ In "Keep knees aligned!" form_check_messages.
Proof.
  intros s angles.
  assert (H : In "Keep knees aligned!" (evaluate_form s angles "squat"))
    by (vm_compute; auto).
  split; [exact H|].
  apply (no_depth_feedback_outside_down s angles "squat" _ ltac:(discriminate) H).
Defined.

(** X15. Exercises without feedback: for ['lunge'], for ['jumping_jack']
    and for any label outside the catalog, [evaluate_form] returns the
    empty list for every frame and every stage.  (The lunge pattern
    declares [knee_alignment], which no rule reads.) *)
Theorem no_feedback_for_lunge_and_jumping_jack :
  forall (s : Analyzer) (angles : AngleFrame) (ty : string),
    ty = "lunge" \/ ty = "jumping_jack" \/ ~ In ty catalog_names ->
    evaluate_form s angles ty = [].
Proof.
  intros s angles ty [->|[->|Hout]].
  - rewrite (evaluate_form_parts s angles "lunge" _ eq_refl).
    unfold joint_part, form_part, joint_feedback. cbn [key_joints flat_map].
    change (Py.str_in "lunge" ["pushup"; "squat"]) with false.
    change (String.eqb "lunge" "situp") with false.
    destruct (stage_is_down (stage s));
      destruct (angles !! "left_knee"); destruct (angles !! "right_knee");
      reflexivity.
  - rewrite (evaluate_form_parts s angles "jumping_jack" _ eq_refl).
    unfold joint_part, form_part, joint_feedback. cbn [key_joints flat_map].
    change (Py.str_in "jumping_jack" ["pushup"; "squat"]) with false.
    change (String.eqb "jumping_jack" "situp") with false.
    destruct (stage_is_down (stage s));
      destruct (angles !! "left_shoulder"); destruct (angles !! "right_shoulder");
      reflexivity.
  - apply lookup_pattern_None in Hout. unfold evaluate_form. by rewrite Hout.
Qed.

Lemma no_feedback_for_lunge_and_jumping_jack_witness :
  evaluate_form (with_stage init (Some Down))
    {[ "left_knee" := 170%Q; "right_knee" := 20%Q ]} "lunge" = [].
Proof. apply no_feedback_for_lunge_and_jumping_jack. by left. Defined.




Lemma joint_part_In s angles ty p joint a m :
  In joint (key_joints p) -> angles !! joint = Some a ->
  In m (joint_feedback s ty (ideal_range p).1 (ideal_range p).2 joint a) ->
  In m (joint_part s angles ty p).
Proof.
  intros Hj Ha Hm. unfold joint_part. apply in_flat_map.
  exists joint. split; [exact Hj|]. by rewrite Ha.
Qed.

(** X17. Depth feedback in the ['down'] stage.  For push-up and squat,
    for a key joint that is in the frame with angle [a]: when [a] is above
    the ideal maximum the feedback contains the "Go deeper!" message for
    that joint and angle, and when [a] is below the ideal minimum it
    contains "Don't go too low! Risk of injury.". *)
Theorem depth_feedback_when_down :
  forall (s : Analyzer) (angles : AngleFrame) (ty : string) (p : Pattern)
         (joint : string) (a : Q),
    ty = "pushup" \/ ty = "squat" ->
    lookup_pattern ty = Some p ->
    stage s = Some Down ->
    In joint (key_joints p) -> angles !! joint = Some a ->
    ((inject_Z (ideal_range p).2 < a)%Q ->
     In (go_deeper_msg joint a) (evaluate_form s angles ty))
    /\ ((a < inject_Z (ideal_range p).1)%Q ->
        In "Don't go too low! Risk of injury." (evaluate_form s angles ty)).
Proof.
  intros s angles ty p joint a Hty Hl Hst Hj Ha.
  assert (Hrange : (ideal_range p).1 <= (ideal_range p).2).
  { destruct Hty as [-> | ->]; injection Hl as <-; discriminate. }
  rewrite (evaluate_form_parts _ _ _ _ Hl).
  assert (Hin : Py.str_in ty ["pushup"; "squat"] = true).
  { apply str_in_In. cbn. destruct Hty; auto. }
  apply stage_is_down_true in Hst.
  split.
  - intros Hgt. apply in_or_app. left.
    apply (joint_part_In _ _ _ _ joint a); [done..|].
    unfold joint_feedback. rewrite Hst, Hin.
    apply Qltb_lt in Hgt. rewrite Hgt. by left.
  - intros Hlt. apply in_or_app. left.
    assert (Hle : (a <= inject_Z (ideal_range p).2)%Q).
    { apply Qlt_le_weak, (Qlt_le_trans _ _ _ Hlt).
      rewrite <- Zle_Qle. exact Hrange. }
    apply (joint_part_In _ _ _ _ joint a); [done..|].
    unfold joint_feedback. rewrite Hst, Hin.
    apply Qltb_ge in Hle. apply Qltb_lt in Hlt. rewrite Hle, Hlt. by left.
Qed.

Lemma depth_feedback_when_down_witness :
  In (String.append "Go deeper! Left Elbow angle: 100" Py.degree)
     (evaluate_form (with_stage init (Some Down)) (elbow_frame 100) "pushup")
  /\ In "Don't go too low! Risk of injury."
       (evaluate_form (with_stage init (Some Down)) (elbow_frame 60) "pushup").
Proof.
  split.
  - assert (H := proj1 (depth_feedback_when_down
                          (with_stage init (Some Down)) (elbow_frame 100) "pushup" _
                          "left_elbow" 100%Q (or_introl eq_refl) eq_refl eq_refl
                          (or_introl eq_refl) ltac:(vm_compute; reflexivity))).
    apply H. unfold Qlt. cbn. lia.
  - assert (H := proj2 (depth_feedback_when_down
                          (with_stage init (Some Down)) (elbow_frame 60) "pushup" _
                          "left_elbow" 60%Q (or_introl eq_refl) eq_refl eq_refl
                          (or_introl eq_refl) ltac:(vm_compute; reflexivity))).
    apply H. unfold Qlt. cbn. lia.
Defined.

(** X18. Angles inside the ideal range are silent: when every key joint
    present in the frame has its angle within the pattern's ideal range,
    [evaluate_form] returns the form-check messages only, the same list
    in every stage. *)
Theorem ideal_range_is_silent :
  forall (s : Analyzer) (angles : AngleFrame) (ty : string) (p : Pattern),
    lookup_pattern ty = Some p ->
    (forall joint a,
       In joint (key_joints p) -> angles !! joint = Some a ->
       (inject_Z (ideal_range p).1 <= a)%Q /\ (a <= inject_Z (ideal_range p).2)%Q) ->
    evaluate_form s angles ty = form_part angles ty p
    /\ forall s', evaluate_form s' angles ty = evaluate_form s angles ty.
Proof.
  intros s angles ty p Hl Hin.
  assert (Hnil : forall s0, joint_part s0 angles ty p = []).
  { intros s0. unfold joint_part. revert Hin.
    generalize (key_joints p) as l.
    induction l as [|j l IH]; intros Hin; [done|].
    cbn [flat_map]. rewrite IH by (intros j' a' Hj'; apply Hin; by right).
    destruct (angles !! j) as [a|] eqn:Ha; [|done].
    destruct (Hin j a ltac:(by left) Ha) as [H1 H2].
    apply Qltb_ge in H1, H2. unfold joint_feedback. rewrite H1, H2.
    by repeat match goal with |- context [if ?b then _ else _] => destruct b end. }
  split.
  - by rewrite (evaluate_form_parts _ _ _ _ Hl), Hnil.
  - intros s'. by rewrite !(evaluate_form_parts _ _ _ _ Hl), !Hnil.
Qed.

Lemma ideal_range_is_silent_witness :
  evaluate_form (with_stage init (Some Down))
    {[ "left_knee" := 90%Q; "right_knee" := 95%Q ]} "squat" = [].
Proof.
  destruct (ideal_range_is_silent (with_stage init (Some Down))
              {[ "left_knee" := 90%Q; "right_knee" := 95%Q ]} "squat" _ eq_refl)
    as [H _].
  - intros joint a [<-|[<-|[]]] Ha; vm_compute in Ha; injection Ha as <-;
      split; discriminate.
  - rewrite H. vm_compute. reflexivity.
Defined.

Lemma joint_feedback_length s ty imin imax j a :
  (length (joint_feedback s ty imin imax j a) <= 1)%nat.
Proof.
  unfold joint_feedback.
  repeat match goal with |- context [if ?b then _ else _] => destruct b end;
    cbn; lia.
Qed.

Lemma joint_part_length s angles ty p :
  (length (joint_part s angles ty p) <= length (key_joints p))%nat.
Proof.
  unfold joint_part. induction (key_joints p) as [|j l IH]; [done|].
  cbn [flat_map]. rewrite length_app. cbn [length].
  destruct (angles !! j); [|cbn; lia].
  pose proof (joint_feedback_length s ty (ideal_range p).1 (ideal_range p).2 j q).
  lia.
Qed.

Lemma form_part_length angles ty p :
  lookup_pattern ty = Some p -> (length (form_part angles ty p) <= 1)%nat.
Proof.
  intros Hl. apply lookup_pattern_In in Hl. cbn [In exercise_patterns] in Hl.
  destruct Hl as [E|[E|[E|[E|[E|[E|[]]]]]]]; injection E as <- <-;
    unfold form_part, back_straight_feedback, knees_aligned_feedback;
    cbn [form_checks];
    repeat match goal with
    | |- context [Py.str_in ?a ?b] =>
        let v := eval vm_compute in (Py.str_in a b) in
        change (Py.str_in a b) with v
    | |- context [String.eqb ?a ?b] =>
        let v := eval vm_compute in (String.eqb a b) in
        change (String.eqb a b) with v
    end; cbn [andb];
    repeat match goal with
    | |- context [match ?o with Some _ => _ | None => _ end] => destruct o
    | |- context [if ?b then _ else _] => destruct b
    end; cbn; lia.
Qed.

(** X19. [evaluate_form] returns at most three messages: at most one per
    key joint and at most one from the form-check rules. *)
Theorem feedback_at_most_three :
  forall (s : Analyzer) (angles : AngleFrame) (ty : string),
    (length (evaluate_form s angles ty) <= 3)%nat.
Proof.
  intros s angles ty.
  destruct (lookup_pattern ty) as [p|] eqn:Hl.
  - rewrite (evaluate_form_parts _ _ _ _ Hl), length_app.
    pose proof (joint_part_length s angles ty p) as H1.
    pose proof (form_part_length angles ty p Hl) as H2.
    assert (H3 : length (key_joints p) = 2%nat).
    { apply lookup_pattern_In in Hl. cbn [In exercise_patterns] in Hl.
      destruct Hl as [E|[E|[E|[E|[E|[E|[]]]]]]]; injection E as <- <-; reflexivity. }
    lia.
  - unfold evaluate_form. rewrite Hl. cbn. lia.
Qed.


(** ** The quality score looks at changes only *)

Lemma Qltb_eq_l (x x' y : Q) : (x == x')%Q -> Py.Qltb x y = Py.Qltb x' y.
Proof.
  intros E. destruct (Py.Qltb x' y) eqn:H.
  - apply Qltb_lt. apply Qltb_lt in H. by rewrite E.
  - apply Qltb_ge. apply Qltb_ge in H. by rewrite E.
Qed.

Lemma Qltb_eq_r (x y y' : Q) : (y == y')%Q -> Py.Qltb x y = Py.Qltb x y'.
Proof.
  intros E. destruct (Py.Qltb x y') eqn:H.
  - apply Qltb_lt. apply Qltb_lt in H. by rewrite E.
  - apply Qltb_ge. apply Qltb_ge in H. by rewrite E.
Qed.

Lemma shared_joints_shift (k : Q) (prev cur : AngleFrame) :
  shared_joints (shift_frame k prev) (shift_frame k cur) = shared_joints prev cur.
Proof. unfold shared_joints, shift_frame. by rewrite !dom_fmap_L. Qed.

Lemma consistentb_shift (k : Q) (prev cur : AngleFrame) (j : string) :
  j ∈ shared_joints prev cur ->
  consistentb (shift_frame k prev) (shift_frame k cur) j = consistentb prev cur j.
Proof.
  unfold shared_joints. rewrite elem_of_intersection, !elem_of_dom.
  intros [[p Hp] [c Hc]].
  assert (E : (delta (shift_frame k prev) (shift_frame k cur) j
               == delta prev cur j)%Q).
  { unfold delta, angle_of, shift_frame. rewrite !lookup_fmap, Hp, Hc.
    change (Qabs ((c + k) - (p + k)) == Qabs (c - p))%Q.
    apply Qabs_wd. ring. }
  unfold consistentb.
  by rewrite (Qltb_eq_r _ _ _ E), (Qltb_eq_l _ _ _ E).
Qed.

Lemma consistent_joints_shift (k : Q) (prev cur : AngleFrame) :
  consistent_joints (shift_frame k prev) (shift_frame k cur)
  = consistent_joints prev cur.
Proof.
  unfold consistent_joints. rewrite shared_joints_shift.
  apply set_eq. intros j. rewrite !elem_of_filter.
  split; intros [H Hj]; (split; [|done]).
  - by rewrite <- (consistentb_shift k).
  - by rewrite (consistentb_shift k).
Qed.

Lemma consecutive_pairs_shift (k : Q) (frames : list AngleFrame) :
  consecutive_pairs (shift_frame k <$> frames)
  = prod_map (shift_frame k) (shift_frame k) <$> consecutive_pairs frames.
Proof.
  unfold consecutive_pairs. destruct frames as [|f frames]; [done|].
  cbn [fmap list_fmap tail]. revert f.
  induction frames as [|g frames IH]; intros f; [done|].
  cbn [zip zip_with fmap list_fmap]. f_equal. apply IH.
Qed.

Lemma counts_shift (k : Q) (frames : list AngleFrame) :
  total_comparisons (shift_frame k <$> frames) = total_comparisons frames
  /\ consistent_count (shift_frame k <$> frames) = consistent_count frames.
Proof.
  unfold total_comparisons, consistent_count. rewrite consecutive_pairs_shift.
  induction (consecutive_pairs frames) as [|[p c] l [IH1 IH2]]; [done|].
  cbn [fmap list_fmap sum_list_with prod_map fst snd].
  change (list_fmap _ _ ?f l) with (f <$> l).
  rewrite IH1, IH2, shared_joints_shift, consistent_joints_shift. done.
Qed.

(** X20. The quality score looks at changes only: adding the same
    offset to every angle of the history leaves the score of
    [_calculate_quality_score] unchanged. *)
Theorem quality_score_ignores_offset :
  forall (s : Analyzer) (k : Q),
    _calculate_quality_score
      (with_history s (shift_frame k <$> angle_history s))
    = _calculate_quality_score s.
Proof.
  intros s k. rewrite !calculate_quality_score_counts.
  cbn [angle_history with_history]. rewrite length_fmap.
  destruct (_ <? _)%nat; [reflexivity|]. cbv zeta.
  assert (E : Py.last_n 10 (shift_frame k <$> angle_history s)
              = shift_frame k <$> Py.last_n 10 (angle_history s)).
  { unfold Py.last_n. by rewrite length_fmap, fmap_drop. }
  rewrite E. destruct (counts_shift k (Py.last_n 10 (angle_history s))) as [-> ->].
  reflexivity.
Qed.


(** ** The pose detector *)

Lemma joints_get_lt (j : string) (i : nat) :
  joints_get joints j = Some i -> (i < 29)%nat.
Proof.
  unfold joints. cbn [joints_get].
  repeat match goal with
  | |- context [if ?b then _ else _] => destruct b
  end; intros [= <-]; lia.
Qed.

Lemma visible_unfold (landmarks : list Landmark) (j : string) (i : nat) :
  joints_get joints j = Some i ->
  visible landmarks j
  = (fun lm => Py.Qltb (1 # 2) (lm_visibility lm)) <$> landmarks !! i.
Proof. intros E. unfold visible. rewrite E. by destruct (landmarks !! i). Qed.

Lemma visible_true (landmarks : list Landmark) (j : string) :
  visible landmarks j = Some true <-> is_visible landmarks j.
Proof.
  unfold visible, is_visible. split.
  - destruct (joints_get joints j) as [i|]; [|discriminate].
    destruct (landmarks !! i) as [lm|] eqn:E; [|discriminate].
    intros [= H]. exists i, lm. repeat split; try done. by apply Qltb_lt.
  - intros (i & lm & -> & -> & H). f_equal. by apply Qltb_lt.
Qed.

Lemma all_visible_true (landmarks : list Landmark) (js : list string) :
  all_visible landmarks js = Some true <->
  forall j, In j js -> is_visible landmarks j.
Proof.
  induction js as [|j js IH]; cbn [all_visible].
  - split; [intros _ j []|done].
  - split.
    + destruct (visible landmarks j) as [[|]|] eqn:E; try discriminate.
      intros H j' [<-|Hj']; [by apply visible_true|]. by apply IH.
    + intros H. rewrite (proj2 (visible_true landmarks j)) by (apply H; by left).
      apply IH. intros j' Hj'. apply H. by right.
Qed.

Lemma all_visible_false (landmarks : list Landmark) (js : list string) :
  all_visible landmarks js = Some false ->
  ~ (forall j, In j js -> is_visible landmarks j).
Proof.
  intros E H. apply all_visible_true in H. congruence.
Qed.

Lemma all_visible_total (landmarks : list Landmark) (js : list string) :
  (29 <= length landmarks)%nat ->
  (forall j, In j js -> joints_get joints j <> None) ->
  all_visible landmarks js <> None.
Proof.
  intros Hlen. induction js as [|j js IH]; intros Hjs; cbn [all_visible]; [done|].
  destruct (joints_get joints j) as [i|] eqn:Ei; [|by destruct (Hjs j); [left|]].
  rewrite (visible_unfold _ _ _ Ei).
  destruct (lookup_lt_is_Some_2 landmarks i) as [lm ->].
  { apply joints_get_lt in Ei. lia. }
  cbn. destruct (Py.Qltb _ _); [|done]. apply IH. intros j' Hj'. apply Hjs. by right.
Qed.

Lemma coord_at_coords (to_pixel : Q -> Z -> Z) (landmarks : list Landmark)
  (h w : Z) (j : string) :
  coord_at (coords to_pixel landmarks h w) j = pixel_of to_pixel landmarks h w j.
Proof.
  unfold coord_at, pixel_of, coords. destruct (joints_get joints j) as [i|]; [|done].
  rewrite list_lookup_fmap. by destruct (landmarks !! i).
Qed.

Lemma pixel_of_visible (to_pixel : Q -> Z -> Z) (landmarks : list Landmark)
  (h w : Z) (j : string) :
  is_visible landmarks j -> pixel_of to_pixel landmarks h w j <> None.
Proof. intros (i & lm & Ei & El & _). unfold pixel_of. by rewrite Ei, El. Qed.

Section AngleBlock.

Variable calculate_angle : Z * Z -> Z * Z -> Z * Z -> Q.
Variable to_pixel : Q -> Z -> Z.
Variable landmarks : list Landmark.
Variables h w : Z.

Lemma angle_block_other (name a b c j : string) (angles angles' : AngleFrame) :
  angle_block calculate_angle landmarks (coords to_pixel landmarks h w) name a b c angles = Some angles' ->
  j <> name -> angles' !! j = angles !! j.
Proof.
  unfold angle_block. intros H Hne.
  destruct (all_visible landmarks [a; b; c]) as [[|]|]; [|congruence|done].
  destruct (coord_at (coords to_pixel landmarks h w) a),
    (coord_at (coords to_pixel landmarks h w) b),
    (coord_at (coords to_pixel landmarks h w) c); try done.
  injection H as <-. by rewrite lookup_insert_ne.
Qed.

Lemma angle_block_self (name a b c : string) (angles angles' : AngleFrame) :
  angle_block calculate_angle landmarks (coords to_pixel landmarks h w) name a b c angles = Some angles' ->
  (is_visible landmarks a /\ is_visible landmarks b /\ is_visible landmarks c
   /\ exists pa pb pc,
        pixel_of to_pixel landmarks h w a = Some pa
        /\ pixel_of to_pixel landmarks h w b = Some pb
        /\ pixel_of to_pixel landmarks h w c = Some pc
        /\ angles' !! name = Some (calculate_angle pa pb pc))
  \/ (~ (is_visible landmarks a /\ is_visible landmarks b
         /\ is_visible landmarks c)
      /\ angles' !! name = angles !! name).
Proof.
  unfold angle_block. intros H.
  destruct (all_visible landmarks [a; b; c]) as [[|]|] eqn:E; [| |done].
  - left. pose proof (proj1 (all_visible_true _ _) E) as Hv.
    repeat (split; [apply Hv; cbn; tauto|]).
    rewrite !coord_at_coords in H.
    destruct (pixel_of to_pixel landmarks h w a) as [pa|]; [|done].
    destruct (pixel_of to_pixel landmarks h w b) as [pb|]; [|done].
    destruct (pixel_of to_pixel landmarks h w c) as [pc|]; [|done].
    injection H as <-. exists pa, pb, pc. by rewrite lookup_insert_eq.
  - right. injection H as <-. split; [|done].
    intros (Ha & Hb & Hc). apply (all_visible_false _ _ E).
    intros j [<-|[<-|[<-|[]]]]; done.
Qed.

Lemma angle_block_total (name a b c : string) (angles : AngleFrame) :
  (29 <= length landmarks)%nat ->
  In (name, (a, b, c)) angle_table ->
  angle_block calculate_angle landmarks (coords to_pixel landmarks h w) name a b c angles <> None.
Proof.
  intros Hlen Hin.
  assert (Hj : forall j, In j [a; b; c] -> joints_get joints j <> None).
  { cbn in Hin. intros j Hjin.
    repeat destruct Hin as [[= <- <- <- <-]|Hin]; try done;
    cbn in Hjin; repeat destruct Hjin as [<-|Hjin]; try done. }
  unfold angle_block.
  destruct (all_visible landmarks [a; b; c]) as [[|]|] eqn:E; [|done|].
  - pose proof (proj1 (all_visible_true _ _) E) as Hv.
    rewrite !coord_at_coords.
    pose proof (pixel_of_visible to_pixel landmarks h w a (Hv a ltac:(cbn; tauto))).
    pose proof (pixel_of_visible to_pixel landmarks h w b (Hv b ltac:(cbn; tauto))).
    pose proof (pixel_of_visible to_pixel landmarks h w c (Hv c ltac:(cbn; tauto))).
    destruct (pixel_of _ _ _ _ a), (pixel_of _ _ _ _ b), (pixel_of _ _ _ _ c); done.
  - by destruct (all_visible_total landmarks [a; b; c] Hlen Hj).
Qed.

End AngleBlock.


Lemma get_joint_angles_blocks
  (calculate_angle : Z * Z -> Z * Z -> Z * Z -> Q) (to_pixel : Q -> Z -> Z)
  (lm : Landmark) (rest : list Landmark) (h w : Z) :
  let landmarks := lm :: rest in
  let block := angle_block calculate_angle landmarks
                 (coords to_pixel landmarks h w) in
  get_joint_angles calculate_angle to_pixel landmarks (h, w) =
    a1 ← block "left_elbow" "left_shoulder" "left_elbow" "left_wrist" ∅;
    a2 ← block "right_elbow" "right_shoulder" "right_elbow" "right_wrist" a1;
    a3 ← block "left_knee" "left_hip" "left_knee" "left_ankle" a2;
    a4 ← block "right_knee" "right_hip" "right_knee" "right_ankle" a3;
    a5 ← block "left_hip" "left_shoulder" "left_hip" "left_knee" a4;
    block "right_hip" "right_shoulder" "right_hip" "right_knee" a5.
Proof.
  cbv zeta. unfold get_joint_angles.
  repeat match goal with
  | |- context [angle_block ?f ?l ?c ?n ?x ?y ?z ?a] =>
      destruct (angle_block f l c n x y z a); cbn [mbind option_bind]; try done
  end.
Qed.

(** X21. What [get_joint_angles] reports.  When the method returns, each
    of its six angles is in the result exactly when the three landmarks
    it is measured on all have visibility above 0.5, and it is then
    [calculate_angle] of their pixel points; an angle with a landmark at
    0.5 or below is left out. *)
Theorem get_joint_angles_reports :
  forall (calculate_angle : Z * Z -> Z * Z -> Z * Z -> Q)
         (to_pixel : Q -> Z -> Z)
         (landmarks : list Landmark) (h w : Z) (angles : AngleFrame),
    get_joint_angles calculate_angle to_pixel landmarks (h, w) = Some angles ->
    forall name a b c : string,
      In (name, (a, b, c)) angle_table ->
      (is_visible landmarks a /\ is_visible landmarks b
       /\ is_visible landmarks c ->
       exists pa pb pc,
         pixel_of to_pixel landmarks h w a = Some pa
         /\ pixel_of to_pixel landmarks h w b = Some pb
         /\ pixel_of to_pixel landmarks h w c = Some pc
         /\ angles !! name = Some (calculate_angle pa pb pc))
      /\ (~ (is_visible landmarks a /\ is_visible landmarks b
             /\ is_visible landmarks c) ->
          angles !! name = None).
Proof.
  intros ca tp landmarks h w angles H name a b c Hin.
  destruct landmarks as [|lm rest].
  { injection H as <-. split; [|done].
    intros ((i & l & _ & Hl & _) & _). by rewrite lookup_nil in Hl. }
  rewrite get_joint_angles_blocks in H. cbv zeta in H.
  repeat match type of H with
  | mbind _ ?x = _ => destruct x eqn:?; cbn [mbind option_bind] in H; [|discriminate]
  end.
  assert (Hcases :
    (is_visible (lm :: rest) a /\ is_visible (lm :: rest) b
     /\ is_visible (lm :: rest) c
     /\ exists pa pb pc,
          pixel_of tp (lm :: rest) h w a = Some pa
          /\ pixel_of tp (lm :: rest) h w b = Some pb
          /\ pixel_of tp (lm :: rest) h w c = Some pc
          /\ angles !! name = Some (ca pa pb pc))
    \/ (~ (is_visible (lm :: rest) a /\ is_visible (lm :: rest) b
           /\ is_visible (lm :: rest) c)
        /\ angles !! name = None)).
  { cbn in Hin.
    repeat destruct Hin as [[= <- <- <- <-]|Hin]; try done;
    repeat match goal with
    | E : angle_block _ _ _ ?n _ _ _ ?x = Some ?y |- context [?y !! ?m] =>
        lazymatch n with
        | m => fail
        | _ => rewrite (angle_block_other _ _ _ _ _ _ _ _ _ m _ _ E) by discriminate
        end
    end;
    match goal with
    | E : angle_block _ _ _ ?n _ _ _ ?x = Some ?y |- context [?y !! ?n] =>
        destruct (angle_block_self _ _ _ _ _ _ _ _ _ _ _ E) as [Hs|[Hn Hs]];
        [left; exact Hs|right; split; [exact Hn|rewrite Hs]]
    end;
    repeat match goal with
    | E : angle_block _ _ _ ?n _ _ _ ?x = Some ?y |- context [?y !! ?m] =>
        rewrite (angle_block_other _ _ _ _ _ _ _ _ _ m _ _ E) by discriminate
    end; apply lookup_empty. }
  destruct Hcases as [(Ha & Hb & Hc & Hex)|[Hn Hnone]]; split.
  - intros _. exact Hex.
  - intros Hn. by destruct Hn.
  - intros Hv. by destruct Hn.
  - intros _. exact Hnone.
Qed.

Lemma get_joint_angles_reports_witness :
  let ca : Z * Z -> Z * Z -> Z * Z -> Q :=
    fun a b c => inject_Z (Z.abs (a.1 - c.1)) in
  let tp : Q -> Z -> Z := fun v n => Z.quot (Qnum v * n) (Z.pos (Qden v)) in
  let seen (x : Q) := {| lm_x := x; lm_y := 1 # 2; lm_z := 0;
                         lm_visibility := 9 # 10 |} in
  let landmarks := (fun i => seen (Z.of_nat i # 40)) <$> seq 0 33 in
  let angles : AngleFrame :=
    {[ "left_elbow" := 64%Q; "right_elbow" := 64%Q;
       "left_knee" := 64%Q; "right_knee" := 64%Q;
       "left_hip" := 224%Q; "right_hip" := 224%Q ]} in
  get_joint_angles ca tp landmarks (480, 640) = Some angles
  /\ In ("left_knee", ("left_hip", "left_knee", "left_ankle")) angle_table
  /\ exists pa pb pc,
       pixel_of tp landmarks 480 640 "left_hip" = Some pa
       /\ pixel_of tp landmarks 480 640 "left_knee" = Some pb
       /\ pixel_of tp landmarks 480 640 "left_ankle" = Some pc
       /\ angles !! "left_knee" = Some (ca pa pb pc).
Proof.
  intros ca tp seen landmarks angles.
  assert (H : get_joint_angles ca tp landmarks (480, 640) = Some angles)
    by (vm_compute; reflexivity).
  assert (Hin : In ("left_knee", ("left_hip", "left_knee", "left_ankle"))
                   angle_table) by (cbn; tauto).
  assert (Hv : forall (j : string) (i : nat),
             joints_get joints j = Some i -> is_visible landmarks j).
  { intros j i Hj. exists i, (seen (Z.of_nat i # 40)).
    split; [exact Hj|]. split; [|reflexivity].
    subst landmarks. rewrite list_lookup_fmap, lookup_seq_lt; [reflexivity|].
    apply joints_get_lt in Hj. lia. }
  split; [exact H|]. split; [exact Hin|].
  apply (proj1 (get_joint_angles_reports ca tp landmarks 480 640 angles H
                  _ _ _ _ Hin)).
  repeat split; eapply Hv; reflexivity.
Defined.

Lemma get_joint_angles_key_In :
  forall (calculate_angle : Z * Z -> Z * Z -> Z * Z -> Q)
         (to_pixel : Q -> Z -> Z)
         (landmarks : list Landmark) (image_shape : Z * Z)
         (angles : AngleFrame),
    get_joint_angles calculate_angle to_pixel landmarks image_shape
    = Some angles ->
    forall (j : string) (a : Q),
      angles !! j = Some a ->
      In j ["left_elbow"; "right_elbow"; "left_knee"; "right_knee";
            "left_hip"; "right_hip"].
Proof.
  intros ca tp landmarks [h w] angles H j a Hj.
  destruct landmarks as [|lm rest].
  { injection H as <-. by rewrite lookup_empty in Hj. }
  rewrite get_joint_angles_blocks in H. cbv zeta in H.
  repeat match type of H with
  | mbind _ ?x = _ => destruct x eqn:?; cbn [mbind option_bind] in H; [|discriminate]
  end.
  repeat match goal with
  | E : angle_block _ _ _ ?n _ _ _ ?x = Some ?y, Hy : ?y !! j = Some a |- _ =>
      destruct (decide (j = n)) as [->|Hne]; [cbn; tauto|];
      rewrite (angle_block_other _ _ _ _ _ _ _ _ _ j _ _ E Hne) in Hy; clear E Hne
  end.
  by rewrite lookup_empty in Hj.
Qed.

(** X22. [get_joint_angles] reports elbow, knee and hip angles only: a
    key of its result is one of the six names, so no frame of the
    detector carries a shoulder, wrist or ankle angle. *)
Theorem get_joint_angles_keys :
  forall (calculate_angle : Z * Z -> Z * Z -> Z * Z -> Q)
         (to_pixel : Q -> Z -> Z)
         (landmarks : list Landmark) (image_shape : Z * Z)
         (angles : AngleFrame),
    get_joint_angles calculate_angle to_pixel landmarks image_shape
    = Some angles ->
    forall (j : string) (a : Q),
      angles !! j = Some a ->
      In j ["left_elbow"; "right_elbow"; "left_knee"; "right_knee";
            "left_hip"; "right_hip"].
Proof. exact get_joint_angles_key_In. Qed.

Lemma get_joint_angles_keys_witness :
  let ca : Z * Z -> Z * Z -> Z * Z -> Q :=
    fun a b c => inject_Z (Z.abs (a.1 - c.1)) in
  let tp : Q -> Z -> Z := fun v n => Z.quot (Qnum v * n) (Z.pos (Qden v)) in
  let seen (x : Q) := {| lm_x := x; lm_y := 1 # 2; lm_z := 0;
                         lm_visibility := 9 # 10 |} in
  let landmarks := (fun i => seen (Z.of_nat i # 40)) <$> seq 0 33 in
  let angles : AngleFrame :=
    {[ "left_elbow" := 64%Q; "right_elbow" := 64%Q;
       "left_knee" := 64%Q; "right_knee" := 64%Q;
       "left_hip" := 224%Q; "right_hip" := 224%Q ]} in
  get_joint_angles ca tp landmarks (480, 640) = Some angles
  /\ angles !! "right_hip" = Some 224%Q
  /\ In "right_hip" ["left_elbow"; "right_elbow"; "left_knee"; "right_knee";
                     "left_hip"; "right_hip"].
Proof.
  intros ca tp seen landmarks angles.
  assert (H : get_joint_angles ca tp landmarks (480, 640) = Some angles)
    by (vm_compute; reflexivity).
  assert (Hj : angles !! "right_hip" = Some 224%Q) by (vm_compute; reflexivity).
  split; [exact H|]. split; [exact Hj|].
  exact (get_joint_angles_keys ca tp landmarks (480, 640) angles H _ _ Hj).
Defined.

(** X23. [get_joint_angles] needs the full landmark list.  On an empty
    list it returns the empty dict, and on a list of 29 landmarks or more
    it returns a dict; on a non-empty list shorter than 25 it raises
    [IndexError], whatever the visibilities are. *)
Theorem get_joint_angles_index_error :
  forall (calculate_angle : Z * Z -> Z * Z -> Z * Z -> Q)
         (to_pixel : Q -> Z -> Z)
         (landmarks : list Landmark) (image_shape : Z * Z),
    (landmarks = [] ->
     get_joint_angles calculate_angle to_pixel landmarks image_shape = Some ∅)
    /\ ((29 <= length landmarks)%nat ->
        exists angles,
          get_joint_angles calculate_angle to_pixel landmarks image_shape
          = Some angles)
    /\ (landmarks <> [] -> (length landmarks < 25)%nat ->
        get_joint_angles calculate_angle to_pixel landmarks image_shape = None).
Proof.
  intros ca tp landmarks [h w]. split; [by intros ->|]. split.
  - intros Hlen. destruct landmarks as [|lm rest]; [cbn in Hlen; lia|].
    rewrite get_joint_angles_blocks. cbv zeta.
    repeat match goal with
    | |- context [angle_block ca ?l ?c ?n ?x ?y ?z ?a] =>
        let E := fresh "E" in
        destruct (angle_block ca l c n x y z a) eqn:E;
        [cbn [mbind option_bind]
        |exfalso; revert E; apply angle_block_total; [exact Hlen|cbn; tauto]]
    end.
    by eexists.
  - intros Hne Hlen. destruct landmarks as [|lm rest]; [done|].
    rewrite get_joint_angles_blocks. cbv zeta.
    set (l := lm :: rest) in *.
    assert (H24 : l !! 24%nat = None) by (apply lookup_ge_None; lia).
    assert (H25 : l !! 25%nat = None) by (apply lookup_ge_None; lia).
    assert (B3 : forall a, angle_block ca l (coords tp l h w) "left_knee"
                             "left_hip" "left_knee" "left_ankle" a = None
                           \/ angle_block ca l (coords tp l h w) "left_knee"
                             "left_hip" "left_knee" "left_ankle" a = Some a).
    { intros a. unfold angle_block. cbn [all_visible].
      rewrite (visible_unfold l "left_hip" 23 eq_refl),
              (visible_unfold l "left_knee" 25 eq_refl), H25.
      destruct (l !! 23%nat) as [x|]; cbn; [|by left].
      destruct (Py.Qltb _ _); [by left|by right]. }
    assert (B4 : forall a, angle_block ca l (coords tp l h w) "right_knee"
                             "right_hip" "right_knee" "right_ankle" a = None).
    { intros a. unfold angle_block. cbn [all_visible].
      by rewrite (visible_unfold l "right_hip" 24 eq_refl), H24. }
    destruct (angle_block ca l _ "left_elbow" _ _ _ _) as [a1|];
      cbn [mbind option_bind]; [|done].
    destruct (angle_block ca l _ "right_elbow" _ _ _ _) as [a2|];
      cbn [mbind option_bind]; [|done].
    destruct (B3 a2) as [->| ->]; cbn [mbind option_bind]; [done|].
    by rewrite B4.
Qed.

Lemma get_joint_angles_index_error_witness :
  let ca : Z * Z -> Z * Z -> Z * Z -> Q :=
    fun a b c => inject_Z (Z.abs (a.1 - c.1)) in
  let tp : Q -> Z -> Z := fun v n => Z.quot (Qnum v * n) (Z.pos (Qden v)) in
  let seen := {| lm_x := 1 # 2; lm_y := 1 # 2; lm_z := 0;
                 lm_visibility := 9 # 10 |} in
  get_joint_angles ca tp [] (480, 640) = Some ∅
  /\ (exists angles,
        get_joint_angles ca tp (repeat seen 33) (480, 640) = Some angles)
  /\ get_joint_angles ca tp (repeat seen 24) (480, 640) = None.
Proof.
  intros ca tp seen.
  split; [|split].
  - by apply (get_joint_angles_index_error ca tp [] (480, 640)).
  - apply (get_joint_angles_index_error ca tp (repeat seen 33) (480, 640)).
    cbn. lia.
  - apply (get_joint_angles_index_error ca tp (repeat seen 24) (480, 640)).
    + discriminate.
    + cbn. lia.
Defined.


(** ** The detector feeding the analyzer *)

Lemma detector_frame_no_shoulders
  (calculate_angle : Z * Z -> Z * Z -> Z * Z -> Q) (to_pixel : Q -> Z -> Z)
  (angles : AngleFrame) :
  detector_frame calculate_angle to_pixel angles -> no_shoulders angles.
Proof.
  intros (landmarks & shape & H).
  split.
  - destruct (angles !! "left_shoulder") as [a|] eqn:E; [|done].
    pose proof (get_joint_angles_key_In _ _ _ _ _ H _ _ E) as Hin.
    cbn in Hin. by repeat destruct Hin as [?|Hin].
  - destruct (angles !! "right_shoulder") as [a|] eqn:E; [|done].
    pose proof (get_joint_angles_key_In _ _ _ _ _ H _ _ E) as Hin.
    cbn in Hin. by repeat destruct Hin as [?|Hin].
Qed.

Lemma In_deque_append {A} (m : nat) (d : list A) (x y : A) :
  In y (Py.deque_append m d x) -> In y d \/ y = x.
Proof.
  unfold Py.deque_append. destruct (_ <=? _)%nat; rewrite in_app_iff; cbn.
  - intros [H|[<-|[]]]; [left|by right].
    rewrite <- list_elem_of_In in *. by eapply subseteq_drop.
  - intros [H|[<-|[]]]; [by left|by right].
Qed.

Lemma no_shoulders_not_jumping_jack (s : Analyzer) :
  (forall f, In f (angle_history s) -> no_shoulders f) ->
  first_match s exercise_patterns <> Some "jumping_jack".
Proof.
  intros Hfree.
  assert (Hjj : forall p, key_joints p = ["left_shoulder"; "right_shoulder"] ->
                          forall d u, motion p = Dynamic d u ->
                          _matches_pattern s "jumping_jack" p = false).
  { intros p Hk d u Hm. apply (matches_dynamic_false s _ p d u Hm).
    intros joint Hj f1 f2 a1 a2 Hf1 _ Ha1 _. exfalso.
    apply In_last_n in Hf1. destruct (Hfree f1 Hf1) as [Hl Hr].
    rewrite Hk in Hj. cbn in Hj. destruct Hj as [<-|[<-|[]]]; congruence. }
  unfold exercise_patterns. cbn [first_match].
  match goal with
  | |- context [_matches_pattern s "jumping_jack" ?p] =>
      rewrite (Hjj p eq_refl _ _ eq_refl)
  end.
  repeat match goal with
  | |- context [if ?b then _ else _] => destruct b
  end; discriminate.
Qed.

Lemma step_no_shoulders (s : Analyzer) (c : Call) :
  (forall angles, c = CallDetect angles -> no_shoulders angles) ->
  (forall f, In f (angle_history s) -> no_shoulders f)
  /\ current_exercise s <> Some "jumping_jack" ->
  (forall f, In f (angle_history (step s c)) -> no_shoulders f)
  /\ current_exercise (step s c) <> Some "jumping_jack".
Proof.
  intros Hc [Hh Hl].
  destruct c as [angles|angles ty|angles ty| |]; cbn [step]; try done.
  - destruct (Py.dict_empty angles) eqn:Hemp.
    { apply dict_empty_true in Hemp. subst. by rewrite detect_exercise_empty_eq. }
    apply dict_empty_false in Hemp.
    rewrite (detect_exercise_nonempty _ _ Hemp). cbv zeta.
    assert (Hh' : forall f, In f (history_after s angles) -> no_shoulders f).
    { intros f Hf. apply In_deque_append in Hf as [Hf| ->]; [by apply Hh|].
      by apply Hc. }
    destruct (_ <? _)%nat; [done|].
    destruct (first_match (with_history s (history_after s angles)) exercise_patterns)
      as [e|] eqn:E; [|done].
    cbn [fst current_exercise angle_history with_exercise with_history].
    split; [exact Hh'|]. intros [= ->].
    exact (no_shoulders_not_jumping_jack
             (with_history s (history_after s angles)) Hh' E).
  - by destruct (count_repetitions_frame s angles ty) as (-> & -> & _).
Qed.

Lemma run_no_shoulders (calls : list Call) :
  forall s,
    (forall angles, In (CallDetect angles) calls -> no_shoulders angles) ->
    (forall f, In f (angle_history s) -> no_shoulders f)
    /\ current_exercise s <> Some "jumping_jack" ->
    (forall f, In f (angle_history (run s calls)) -> no_shoulders f)
    /\ current_exercise (run s calls) <> Some "jumping_jack".
Proof.
  induction calls as [|c calls IH]; intros s Hc Hs; [exact Hs|].
  cbn [run fold_left]. apply IH.
  - intros angles Hin. apply Hc. by right.
  - apply step_no_shoulders; [|exact Hs].
    intros angles ->. apply Hc. by left.
Qed.

(** X24. Jumping jacks are never counted on the detector's frames.  The
    counter reads a shoulder angle for ['jumping_jack'], and
    [get_joint_angles] reports none: on a frame that came from
    [get_joint_angles], [count_repetitions(angles, 'jumping_jack')]
    returns the count as it was and changes nothing. *)
Theorem jumping_jack_never_counted :
  forall (calculate_angle : Z * Z -> Z * Z -> Z * Z -> Q)
         (to_pixel : Q -> Z -> Z)
         (landmarks : list Landmark) (image_shape : Z * Z)
         (angles : AngleFrame) (s : Analyzer),
    get_joint_angles calculate_angle to_pixel landmarks image_shape
    = Some angles ->
    count_repetitions s angles "jumping_jack" = (s, exercise_count s).
Proof.
  intros ca tp landmarks shape angles s H.
  destruct (detector_frame_no_shoulders ca tp angles) as [Hl Hr];
    [by exists landmarks, shape|].
  eapply count_repetitions_none_present; [reflexivity|reflexivity|].
  intros j Hj. cbn in Hj. by destruct Hj as [<-|[<-|[]]].
Qed.

Lemma jumping_jack_never_counted_witness :
  let ca : Z * Z -> Z * Z -> Z * Z -> Q :=
    fun a b c => inject_Z (Z.abs (a.1 - c.1)) in
  let tp : Q -> Z -> Z := fun v n => Z.quot (Qnum v * n) (Z.pos (Qden v)) in
  let seen (x : Q) := {| lm_x := x; lm_y := 1 # 2; lm_z := 0;
                         lm_visibility := 9 # 10 |} in
  let landmarks := (fun i => seen (Z.of_nat i # 40)) <$> seq 0 33 in
  let angles : AngleFrame :=
    {[ "left_elbow" := 64%Q; "right_elbow" := 64%Q;
       "left_knee" := 64%Q; "right_knee" := 64%Q;
       "left_hip" := 224%Q; "right_hip" := 224%Q ]} in
  let s := with_stage init (Some Down) in
  get_joint_angles ca tp landmarks (480, 640) = Some angles
  /\ count_repetitions s angles "jumping_jack" = (s, 0).
Proof.
  intros ca tp seen landmarks angles s.
  assert (H : get_joint_angles ca tp landmarks (480, 640) = Some angles)
    by (vm_compute; reflexivity).
  split; [exact H|].
  exact (jumping_jack_never_counted ca tp landmarks (480, 640) angles s H).
Defined.

(** X25. Jumping jacks are never detected on the detector's frames.
    When every frame handed to [detect_exercise] came from
    [get_joint_angles], the label is never ['jumping_jack'], and
    [detect_exercise] does not return it on the next such frame. *)
Theorem jumping_jack_never_detected :
  forall (calculate_angle : Z * Z -> Z * Z -> Z * Z -> Q)
         (to_pixel : Q -> Z -> Z) (calls : list Call) (angles : AngleFrame),
    fed_by_detector calculate_angle to_pixel calls ->
    detector_frame calculate_angle to_pixel angles ->
    current_exercise (run init calls) <> Some "jumping_jack"
    /\ (detect_exercise (run init calls) angles).2 <> "jumping_jack".
Proof.
  intros ca tp calls angles Hfed Hfr.
  assert (Hinit : (forall f, In f (angle_history init) -> no_shoulders f)
                  /\ current_exercise init <> Some "jumping_jack")
    by (split; [by intros f []|done]).
  assert (Hns : forall a, In (CallDetect a) calls -> no_shoulders a)
    by (intros a Ha; exact (detector_frame_no_shoulders ca tp a (Hfed a Ha))).
  pose proof (run_no_shoulders calls init Hns Hinit) as [Hh Hl].
  split; [exact Hl|].
  set (s := run init calls) in *.
  destruct (Py.dict_empty angles) eqn:Hemp.
  { apply dict_empty_true in Hemp. subst angles.
    by rewrite detect_exercise_empty_eq. }
  apply dict_empty_false in Hemp.
  rewrite (detect_exercise_nonempty _ _ Hemp). cbv zeta.
  assert (Hor : Py.or_unknown (current_exercise s) <> "jumping_jack").
  { destruct (current_exercise s) as [e|]; cbn; [|discriminate].
    destruct (String.eqb_spec e ""); [discriminate|]. congruence. }
  destruct (_ <? _)%nat; [exact Hor|].
  destruct (first_match _ _) as [e|] eqn:E; [|exact Hor].
  cbn [snd]. intros ->. revert E. apply no_shoulders_not_jumping_jack.
  cbn [angle_history with_history]. intros f Hf.
  apply In_deque_append in Hf as [Hf| ->]; [by apply Hh|].
  exact (detector_frame_no_shoulders ca tp _ Hfr).
Qed.

Lemma jumping_jack_never_detected_witness :
  let ca : Z * Z -> Z * Z -> Z * Z -> Q :=
    fun a b c => inject_Z (Z.abs (a.1 - c.1)) in
  let tp : Q -> Z -> Z := fun v n => Z.quot (Qnum v * n) (Z.pos (Qden v)) in
  let seen (x : Q) := {| lm_x := x; lm_y := 1 # 2; lm_z := 0;
                         lm_visibility := 9 # 10 |} in
  let landmarks := (fun i => seen (Z.of_nat i # 40)) <$> seq 0 33 in
  let angles : AngleFrame :=
    {[ "left_elbow" := 64%Q; "right_elbow" := 64%Q;
       "left_knee" := 64%Q; "right_knee" := 64%Q;
       "left_hip" := 224%Q; "right_hip" := 224%Q ]} in
  let calls := [CallDetect angles; CallCount angles "squat"; CallDetect angles] in
  fed_by_detector ca tp calls
  /\ detector_frame ca tp angles
  /\ current_exercise (run init calls) <> Some "jumping_jack"
  /\ (detect_exercise (run init calls) angles).2 <> "jumping_jack".
Proof.
  intros ca tp seen landmarks angles calls.
  assert (H : get_joint_angles ca tp landmarks (480, 640) = Some angles)
    by (vm_compute; reflexivity).
  assert (Hfr : detector_frame ca tp angles)
    by (exists landmarks, (480, 640); exact H).
  assert (Hfed : fed_by_detector ca tp calls).
  { intros a Ha. cbn in Ha.
    destruct Ha as [[= <-]|[[=]|[[= <-]|[]]]]; exact Hfr. }
  split; [exact Hfed|]. split; [exact Hfr|].
  exact (jumping_jack_never_detected ca tp calls angles Hfed Hfr).
Defined.
